(** * pty-termux-utils: provider resolution and the fallback adapter

    A shallow embedding of [getPty.ts], [config.ts], [errors.ts] and
    [pty-adapter.ts].

    - The asynchronous functions ([loadProvider], [getPty], [spawnPty]) are
      written once, as programs over the effects they perform (reading and
      writing the module-level [cached] cell, console output, [await] of a
      dynamic [import()], [await] of one of their own promises, [throw]).
    - Two interpreters execute those programs: [run], where a caller awaits
      each call before making the next one, and the cooperative scheduler
      [exec], where several calls are in flight and every [await] is a point
      where another call may run.
    - The fallback session [PtyAdapterProcess] is a reactive object: host
      notifications (stdout/stderr data, exit, error) and caller operations
      (on, write, resize, kill) produce listener calls and host calls.
      Listeners are functions of the caller and may throw; the session
      calls them in a [forEach] without a [try]. *)

From Stdlib Require Import ZArith.
From stdpp Require Import base option list strings gmap fin_maps.

Local Open Scope string_scope.
Local Open Scope list_scope.
Local Open Scope Z_scope.

(* ===================================================================== *)
(** ** JavaScript values that matter to the code *)
(* ===================================================================== *)

(** errors.ts: the [code] union of [PtyError]. *)
Inductive PtyErrorCode : Type :=
| NATIVE_NOT_FOUND
| NATIVE_INVALID_EXPORT
| SPAWN_FAILED
| RESIZE_FAILED.

Definition code_string (c : PtyErrorCode) : string :=
  match c with
  | NATIVE_NOT_FOUND => "NATIVE_NOT_FOUND"
  | NATIVE_INVALID_EXPORT => "NATIVE_INVALID_EXPORT"
  | SPAWN_FAILED => "SPAWN_FAILED"
  | RESIZE_FAILED => "RESIZE_FAILED"
  end.

(** errors.ts: [class PtyError extends Error], [name] is always 'PtyError'. *)
Record PtyError : Type := mkPtyError {
  pty_message : string;
  pty_code : PtyErrorCode
}.

(** What a [throw] or a rejected promise can carry.  [JsError] is any other
    instance of [Error], with its [message] and its [code] property when it
    has one; [JsOther] is a value that is not an [Error], of which the code
    only observes truthiness ([error || '']). *)
Inductive JsThrown : Type :=
| JsError (message : string) (code : option string)
| JsPtyError (e : PtyError)
| JsOther (truthy : bool).

(** [e instanceof Error] *)
Definition instanceof_Error (e : JsThrown) : bool :=
  match e with
  | JsError _ _ | JsPtyError _ => true
  | JsOther _ => false
  end.

(** [e.code] *)
Definition thrown_code (e : JsThrown) : option string :=
  match e with
  | JsError _ c => c
  | JsPtyError p => Some (code_string (pty_code p))
  | JsOther _ => None
  end.

(** [e.message] *)
Definition thrown_message (e : JsThrown) : option string :=
  match e with
  | JsError m _ => Some m
  | JsPtyError p => Some (pty_message p)
  | JsOther _ => None
  end.

Definition truthy (e : JsThrown) : bool :=
  match e with
  | JsError _ _ | JsPtyError _ => true
  | JsOther b => b
  end.

(** The way a call ends: it returns or it throws. *)
Inductive Completion (A : Type) : Type :=
| Normal (a : A)
| Thrown (e : JsThrown).
Arguments Normal {A} a.
Arguments Thrown {A} e.

(* ===================================================================== *)
(** ** types.ts *)
(* ===================================================================== *)

Record IPtySpawnOptions : Type := mkOptions {
  opt_name : option string;
  opt_cols : option Z;
  opt_rows : option Z;
  opt_cwd : option string;
  opt_env : option (gmap string string);
  opt_handleFlowControl : option bool
}.

(** [options: IPtySpawnOptions = {}] *)
Definition no_options : IPtySpawnOptions :=
  mkOptions None None None None None None.

(** A native session; the resolver only hands it through. *)
Record IPty : Type := mkIPty { ipty_pid : Z }.

(** [IPtyNativeImplementation]: one operation, [spawn], which may throw. *)
Record IPtyNativeImplementation : Type := mkNative {
  spawn : string -> list string -> IPtySpawnOptions -> Completion IPty
}.

Inductive PtyProviderName : Type :=
| mmmbuto_node_pty
| lydell_node_pty_linux_arm64.

#[global] Instance PtyProviderName_eq_dec : EqDecision PtyProviderName.
Proof. solve_decision. Defined.

Record NativePty : Type := mkNativePty {
  module : IPtyNativeImplementation;
  name : PtyProviderName
}.

(** [PtyImplementation = { module, name } | null]; [None] is [null]. *)
Definition PtyImplementation : Type := option NativePty.

(* ===================================================================== *)
(** ** The runtime the module is loaded in *)
(* ===================================================================== *)

(** A loaded value as the shape check sees it: its [spawn] member, [None]
    when the member is missing or falsy. *)
Record JsExport : Type := mkExport {
  export_spawn : option (string -> list string -> IPtySpawnOptions -> Completion IPty)
}.

(** A module namespace: the namespace object itself and its [default]
    export, [None] when [default] is [null] or [undefined]. *)
Record ModuleNs : Type := mkModule {
  mod_default : option JsExport;
  mod_self : JsExport
}.

(** How [await import(moduleName)] settles. *)
Inductive ImportOutcome : Type :=
| ImportOk (m : ModuleNs)
| ImportFail (e : JsThrown).

(** [process.platform], [process.arch], [process.env] and the module
    loader behind [import()]. *)
Record Runtime : Type := mkRuntime {
  platform : string;
  arch : string;
  env : gmap string string;
  dynamic_import : string -> ImportOutcome
}.

(** [String.prototype.includes] *)
Fixpoint includes (s sub : string) : bool :=
  String.prefix sub s ||
  match s with
  | EmptyString => false
  | String _ s' => includes s' sub
  end.

(* ===================================================================== *)
(** ** Console output *)
(* ===================================================================== *)

Inductive Severity : Type := SevDebug | SevError.

#[global] Instance Severity_eq_dec : EqDecision Severity.
Proof. solve_decision. Defined.

Inductive LogArg : Type :=
| ArgString (s : string)
| ArgThrown (e : JsThrown).

(** One call of [console.debug] or [console.error]. *)
Record LogLine : Type := mkLogLine {
  severity : Severity;
  text : string;
  aux : list LogArg
}.

(* ===================================================================== *)
(** ** Programs *)
(* ===================================================================== *)

(** The effects of getPty.ts.  [AwaitImport] is [await import(m)];
    [AwaitTick] is an [await] of a promise of the program's own (the
    caller resumes in a later microtask). *)
Inductive Prog (A : Type) : Type :=
| Ret (a : A)
| Throw (e : JsThrown)
| GetCached (k : option PtyImplementation -> Prog A)
| SetCached (v : PtyImplementation) (k : Prog A)
| Console (l : LogLine) (k : Prog A)
| AwaitImport (moduleName : string) (k : ImportOutcome -> Prog A)
| AwaitTick (k : Prog A).
Arguments Ret {A} a.
Arguments Throw {A} e.
Arguments GetCached {A} k.
Arguments SetCached {A} v k.
Arguments Console {A} l k.
Arguments AwaitImport {A} moduleName k.
Arguments AwaitTick {A} k.

Fixpoint bind {A B : Type} (p : Prog A) (f : A -> Prog B) : Prog B :=
  match p with
  | Ret a => f a
  | Throw e => Throw e
  | GetCached k => GetCached (fun c => bind (k c) f)
  | SetCached v k => SetCached v (bind k f)
  | Console l k => Console l (bind k f)
  | AwaitImport m k => AwaitImport m (fun o => bind (k o) f)
  | AwaitTick k => AwaitTick (bind k f)
  end.

(** [try { p } catch (e) { h e }] *)
Fixpoint try_catch {A : Type} (p : Prog A) (h : JsThrown -> Prog A) : Prog A :=
  match p with
  | Ret a => Ret a
  | Throw e => h e
  | GetCached k => GetCached (fun c => try_catch (k c) h)
  | SetCached v k => SetCached v (try_catch k h)
  | Console l k => Console l (try_catch k h)
  | AwaitImport m k => AwaitImport m (fun o => try_catch (k o) h)
  | AwaitTick k => AwaitTick (try_catch k h)
  end.

#[global] Instance Prog_ret : MRet Prog := fun A a => Ret a.
#[global] Instance Prog_bind : MBind Prog := fun A B f p => bind p f.

(** [await import(moduleName)]: the module, or the rejection rethrown. *)
Definition await_import (moduleName : string) : Prog ModuleNs :=
  AwaitImport moduleName (fun o =>
    match o with
    | ImportOk m => Ret m
    | ImportFail e => Throw e
    end).

(** [await p] for an async function [p] of this module. *)
Definition await {A : Type} (p : Prog A) : Prog A :=
  x ← p; AwaitTick (Ret x).

Definition get_cached : Prog (option PtyImplementation) := GetCached Ret.
Definition set_cached (v : PtyImplementation) : Prog unit := SetCached v (Ret tt).
Definition console (l : LogLine) : Prog unit := Console l (Ret tt).

(* ===================================================================== *)
(** ** config.ts *)
(* ===================================================================== *)

(** [PTY_DEBUG = process.env.PTY_DEBUG === '1'] *)
Definition PTY_DEBUG (rt : Runtime) : bool :=
  bool_decide (env rt !! "PTY_DEBUG" = Some "1").

(** [logDebug(message, ...args)] *)
Definition logDebug (rt : Runtime) (message : string) (args : list LogArg) : Prog unit :=
  if PTY_DEBUG rt then
    console (mkLogLine SevDebug ("[PTY] " +:+ message) args)
  else Ret tt.

(** [logError(message, error?)]: the second argument is [error || '']. *)
Definition logError (message : string) (error : option JsThrown) : Prog unit :=
  console (mkLogLine SevError ("[PTY] " +:+ message)
    [match error with
     | Some e => if truthy e then ArgThrown e else ArgString ""
     | None => ArgString ""
     end]).

(* ===================================================================== *)
(** ** getPty.ts *)
(* ===================================================================== *)

Definition termux_module : string := "@mmmbuto/node-pty-android-arm64".
Definition linux_arm64_module : string := "@lydell/node-pty-linux-arm64".

(** [process.platform === 'android' || process.env.PREFIX?.includes('com.termux')];
    an absent [PREFIX] gives [undefined], which is falsy. *)
Definition isTermux (rt : Runtime) : bool :=
  bool_decide (platform rt = "android") ||
  match env rt !! "PREFIX" with
  | Some prefix => includes prefix "com.termux"
  | None => false
  end.

(** [process.platform === 'linux' && process.arch === 'arm64'] *)
Definition isLinuxArm64 (rt : Runtime) : bool :=
  bool_decide (platform rt = "linux") && bool_decide (arch rt = "arm64").

(** [(mod as any).default ?? mod] *)
Definition default_or_self (m : ModuleNs) : JsExport :=
  match mod_default m with
  | Some d => d
  | None => mod_self m
  end.

(** The [catch] block of [loadProvider]. *)
Definition loadProvider_catch (e : JsThrown) : Prog PtyImplementation :=
  (if instanceof_Error e && bool_decide (thrown_code e ≠ Some "MODULE_NOT_FOUND")
   then logError "Unexpected error loading native module:" (Some e)
   else Ret tt);;
  Ret None.

Definition loadProvider (rt : Runtime) (moduleName : string) (nm : PtyProviderName)
  : Prog PtyImplementation :=
  try_catch
    (m ← await_import moduleName;
     let impl := default_or_self m in
     match export_spawn impl with
     | None =>
         logDebug rt "Native module invalid export: missing spawn function" [];;
         Ret None
     | Some f =>
         logDebug rt "Native module loaded:" [ArgString moduleName];;
         Ret (Some (mkNativePty (mkNative f) nm))
     end)
    loadProvider_catch.

(** Priority 3: [logDebug(...); return (cached = null)] *)
Definition getPty_fallback (rt : Runtime) : Prog PtyImplementation :=
  logDebug rt "Using fallback PTY adapter with child_process" [];;
  set_cached None;;
  Ret None.

(** Priority 2: [if (!isTermux && isLinuxArm64) { ... }], then priority 3. *)
Definition getPty_linux_arm64 (rt : Runtime) : Prog PtyImplementation :=
  if negb (isTermux rt) && isLinuxArm64 rt then
    pty ← await (loadProvider rt linux_arm64_module lydell_node_pty_linux_arm64);
    match pty with
    | Some _ => set_cached pty;; Ret pty
    | None =>
        logDebug rt "Linux ARM64 PTY not found, using fallback adapter" [];;
        getPty_fallback rt
    end
  else getPty_fallback rt.

(** Priority 1: [if (isTermux) { ... }], then priority 2. *)
Definition getPty_termux (rt : Runtime) : Prog PtyImplementation :=
  if isTermux rt then
    pty ← await (loadProvider rt termux_module mmmbuto_node_pty);
    match pty with
    | Some _ => set_cached pty;; Ret pty
    | None =>
        logDebug rt "Termux PTY not found, trying next provider" [];;
        getPty_linux_arm64 rt
    end
  else getPty_linux_arm64 rt.

Definition getPty (rt : Runtime) : Prog PtyImplementation :=
  c ← get_cached;
  match c with
  | Some v => Ret v
  | None => getPty_termux rt
  end.

(** The [catch] block of [spawnPty]. *)
Definition spawnPty_catch (e : JsThrown) : Prog IPty :=
  logError "Failed to spawn PTY process:" (Some e);;
  Throw (JsPtyError (mkPtyError
    (if instanceof_Error e then default "" (thrown_message e)
     else "Unknown spawn error")
    SPAWN_FAILED)).

Definition spawnPty (rt : Runtime) (file : string) (args : list string)
    (options : IPtySpawnOptions) : Prog IPty :=
  pty ← await (getPty rt);
  match pty with
  | None => Throw (JsPtyError (mkPtyError "Native PTY not available" NATIVE_NOT_FOUND))
  | Some impl =>
      try_catch
        (match spawn (module impl) file args options with
         | Normal p => Ret p
         | Thrown e => Throw e
         end)
        spawnPty_catch
  end.

(* ===================================================================== *)
(** ** getPty.ts, first version (one provider) *)
(* ===================================================================== *)

Module V1.

(** [process.platform === 'android' || process.env.PREFIX?.includes('com.termux')] *)
Definition isAndroid (rt : Runtime) : bool := isTermux rt.

(** The [catch] block. *)
Definition getPty_catch (rt : Runtime) (e : JsThrown) : Prog PtyImplementation :=
  logDebug rt "Native module not found, using fallback adapter" [];;
  (if instanceof_Error e && bool_decide (thrown_code e ≠ Some "MODULE_NOT_FOUND")
   then logError "Unexpected error loading native module:" (Some e)
   else Ret tt);;
  set_cached None;;
  Ret None.

Definition getPty (rt : Runtime) : Prog PtyImplementation :=
  c ← get_cached;
  match c with
  | Some v => Ret v
  | None =>
      if negb (isAndroid rt) then
        logDebug rt "Not on Android/Termux, skipping native PTY" [];;
        set_cached None;;
        Ret None
      else
        try_catch
          (m ← await_import termux_module;
           let impl := default_or_self m in
           match export_spawn impl with
           | None =>
               logDebug rt "Native module invalid export: missing spawn function" [];;
               set_cached None;;
               Ret None
           | Some f =>
               logDebug rt "Native module loaded:" [ArgString termux_module];;
               let v := Some (mkNativePty (mkNative f) mmmbuto_node_pty) in
               set_cached v;;
               Ret v
           end)
          (getPty_catch rt)
  end.

End V1.

(* ===================================================================== *)
(** ** Module state and the two interpreters *)
(* ===================================================================== *)

(** [cached] ([None] is [undefined]), what was printed, and the module names
    handed to [import()], oldest first. *)
Record State : Type := mkState {
  cached : option PtyImplementation;
  printed : list LogLine;
  loads : list string
}.

Definition initial : State := mkState None [] [].

(** A caller that awaits the call before doing anything else: every
    [await] settles and the program goes on. *)
Fixpoint run {A : Type} (rt : Runtime) (p : Prog A) (s : State) : Completion A * State :=
  match p with
  | Ret a => (Normal a, s)
  | Throw e => (Thrown e, s)
  | GetCached k => run rt (k (cached s)) s
  | SetCached v k => run rt k (mkState (Some v) (printed s) (loads s))
  | Console l k => run rt k (mkState (cached s) (printed s ++ [l]) (loads s))
  | AwaitImport m k =>
      run rt (k (dynamic_import rt m)) (mkState (cached s) (printed s) (loads s ++ [m]))
  | AwaitTick k => run rt k s
  end.

(** A call runs until it returns, throws, or reaches an [await]. *)
Inductive Paused (A : Type) : Type :=
| Done (c : Completion A)
| Suspended (k : Prog A).
Arguments Done {A} c.
Arguments Suspended {A} k.

(** One synchronous stretch of a call.  The module name reaches [import()]
    before the call suspends. *)
Fixpoint advance {A : Type} (rt : Runtime) (p : Prog A) (s : State) : Paused A * State :=
  match p with
  | Ret a => (Done (Normal a), s)
  | Throw e => (Done (Thrown e), s)
  | GetCached k => advance rt (k (cached s)) s
  | SetCached v k => advance rt k (mkState (Some v) (printed s) (loads s))
  | Console l k => advance rt k (mkState (cached s) (printed s ++ [l]) (loads s))
  | AwaitImport m k =>
      (Suspended (k (dynamic_import rt m)),
       mkState (cached s) (printed s) (loads s ++ [m]))
  | AwaitTick k => (Suspended k, s)
  end.

(** The scheduler: [Call] is a new [getPty()] call, which runs to its first
    [await]; [Resume i] lets the [i]-th call go on from the [await] it is
    suspended at. *)
Inductive Event : Type :=
| Call
| Resume (i : nat).

Record Sched : Type := mkSched {
  modstate : State;
  in_flight : list (nat * Prog PtyImplementation);
  returned : list (nat * Completion PtyImplementation);
  started : nat
}.

Definition boot : Sched := mkSched initial [] [] 0.

Definition settle (i : nat) (r : Paused PtyImplementation * State)
    (others : list (nat * Prog PtyImplementation)) (sc : Sched) (n : nat) : Sched :=
  match r with
  | (Done c, s) => mkSched s others (returned sc ++ [(i, c)]) n
  | (Suspended k, s) => mkSched s (others ++ [(i, k)]) (returned sc) n
  end.

Definition find_call (i : nat) (l : list (nat * Prog PtyImplementation))
  : option (Prog PtyImplementation) :=
  snd <$> List.find (fun t => Nat.eqb (fst t) i) l.

Definition drop_call (i : nat) (l : list (nat * Prog PtyImplementation))
  : list (nat * Prog PtyImplementation) :=
  List.filter (fun t => negb (Nat.eqb (fst t) i)) l.

Definition step (rt : Runtime) (sc : Sched) (ev : Event) : Sched :=
  match ev with
  | Call =>
      settle (started sc) (advance rt (getPty rt) (modstate sc))
        (in_flight sc) sc (S (started sc))
  | Resume i =>
      match find_call i (in_flight sc) with
      | Some k =>
          settle i (advance rt k (modstate sc)) (drop_call i (in_flight sc))
            sc (started sc)
      | None => sc
      end
  end.

Definition exec (rt : Runtime) (evs : list Event) (sc : Sched) : Sched :=
  fold_left (step rt) evs sc.

(* ===================================================================== *)
(** ** Concrete runtimes *)
(* ===================================================================== *)

Definition spawn_ok : string -> list string -> IPtySpawnOptions -> Completion IPty :=
  fun _ _ _ => Normal (mkIPty 4242).

Definition spawn_throws : string -> list string -> IPtySpawnOptions -> Completion IPty :=
  fun _ _ _ => Thrown (JsError "forkpty(3) failed." None).

(** A module that exports [spawn] under [default]. *)
Definition good_module : ModuleNs :=
  mkModule (Some (mkExport (Some spawn_ok))) (mkExport None).

(** A module whose [default] export has no [spawn]. *)
Definition shapeless_module : ModuleNs :=
  mkModule (Some (mkExport None)) (mkExport None).

(** [import()] of a package that is not installed: Node rejects with an
    [Error] whose [code] is 'ERR_MODULE_NOT_FOUND'. *)
Definition not_installed (m : string) : ImportOutcome :=
  ImportFail (JsError ("Cannot find package '" +:+ m +:+ "'") (Some "ERR_MODULE_NOT_FOUND")).

(** A loader that fails the way [require()] does, with [code]
    'MODULE_NOT_FOUND'. *)
Definition not_found_by_require (m : string) : ImportOutcome :=
  ImportFail (JsError ("Cannot find module '" +:+ m +:+ "'") (Some "MODULE_NOT_FOUND")).

(** Only the Linux ARM64 package is installed. *)
Definition only_linux_arm64_installed (m : string) : ImportOutcome :=
  if String.eqb m linux_arm64_module then ImportOk good_module else not_installed m.

Definition only_termux_installed (m : string) : ImportOutcome :=
  if String.eqb m termux_module then ImportOk good_module else not_installed m.

(** The Termux package is installed but its binary does not load. *)
Definition termux_binary_broken (m : string) : ImportOutcome :=
  if String.eqb m termux_module
  then ImportFail (JsError "dlopen failed: library not found" (Some "ERR_DLOPEN_FAILED"))
  else not_installed m.

(** Node inside Termux reporting [linux]/[arm64], with Termux's [PREFIX]. *)
Definition rt_termux_linux_arm64 : Runtime :=
  mkRuntime "linux" "arm64"
    {[ "PREFIX" := "/data/data/com.termux/files/usr" ]}
    only_linux_arm64_installed.

Definition rt_linux_arm64 : Runtime :=
  mkRuntime "linux" "arm64" ∅ only_linux_arm64_installed.

Definition rt_android : Runtime :=
  mkRuntime "android" "arm64" ∅ only_termux_installed.

Definition rt_android_nothing : Runtime :=
  mkRuntime "android" "arm64" ∅ not_installed.

Definition rt_android_broken : Runtime :=
  mkRuntime "android" "arm64" ∅ termux_binary_broken.

Definition rt_android_debug : Runtime :=
  mkRuntime "android" "arm64" {[ "PTY_DEBUG" := "1" ]} only_termux_installed.

(** The Termux module loads, but its [spawn] throws. *)
Definition rt_android_spawn_fails : Runtime :=
  mkRuntime "android" "arm64" ∅
    (fun _ => ImportOk (mkModule None (mkExport (Some spawn_throws)))).

(** What is installed as the Termux module has no [spawn]. *)
Definition rt_android_shapeless : Runtime :=
  mkRuntime "android" "arm64" ∅ (fun _ => ImportOk shapeless_module).

Definition rt_x64 : Runtime :=
  mkRuntime "linux" "x64" ∅ not_installed.

(* ===================================================================== *)
(** ** pty-adapter.ts *)
(* ===================================================================== *)

(** The child's input stream as the host keeps it: whether it has been
    destroyed, and the chunks it accepted. *)
Record Writable : Type := mkWritable {
  destroyed : bool;
  accepted : list string
}.

(** [stream.write(data)] belongs to the host: it may throw, and it leaves
    the stream in some state. *)
Definition HostWrite : Type := Writable -> string -> Completion unit * Writable.

(** [ReturnType<typeof spawn>]: the handle of the child process.  [stdin],
    [stdout] and [stderr] may be missing (the code reaches them with [?.]);
    [kill_calls] counts the calls of [kill()]. *)
Record ChildProcess : Type := mkChild {
  child_pid : Z;
  stdin : option Writable;
  has_stdout : bool;
  has_stderr : bool;
  kill_calls : nat
}.

(** What the adapter hands to [child_process.spawn]. *)
Record SpawnRequest : Type := mkRequest {
  req_file : string;
  req_args : list string;
  req_cwd : option string;
  req_env : option (gmap string string)
}.

(** [env: options.env ? { ...process.env, ...options.env } : undefined];
    in the spread the later entries win, and an object is always truthy. *)
Definition fallback_env (rt : Runtime) (options : IPtySpawnOptions)
  : option (gmap string string) :=
  match opt_env options with
  | Some e => Some (e ∪ env rt)
  | None => None
  end.

Definition fallback_request (rt : Runtime) (file : string) (args : list string)
    (options : IPtySpawnOptions) : SpawnRequest :=
  mkRequest file args (opt_cwd options) (fallback_env rt options).

(** Node's [child_process.spawn]: an [env] option left [undefined] is
    [process.env]. *)
Definition child_environment (rt : Runtime) (req : SpawnRequest) : gmap string string :=
  default (env rt) (req_env req).

(** The signal an exit listener is called with: [signal ?? 0] is the
    signal's name as [child_process] reports it, or the number 0. *)
Inductive ExitSignal : Type :=
| SignalName (name : string)
| SignalNumber (n : Z).

(** What a listener is called with. *)
Inductive Emitted : Type :=
| EmitData (data : string)
| EmitExit (exitCode : Z) (exitSignal : ExitSignal).

(** A listener is a function of the caller: [listener_id] tells listeners
    apart, [listener_body] is what a call of it does, return or throw. *)
Record Listener : Type := mkListener {
  listener_id : nat;
  listener_body : Emitted -> Completion unit
}.

Record PtyAdapterProcess : Type := mkAdapterProcess {
  pid : Z;
  process : ChildProcess;
  dataListeners : list Listener;
  exitListeners : list Listener
}.

(** [new PtyAdapterProcess(proc)]; the four handlers it installs are
    [notify] below. *)
Definition new_PtyAdapterProcess (proc : ChildProcess) : PtyAdapterProcess :=
  mkAdapterProcess (child_pid proc) proc [] [].

(** [createFallbackAdapter().spawn(file, args, options)], over the host's
    [spawn]. *)
Definition adapter_spawn (rt : Runtime) (host_spawn : SpawnRequest -> ChildProcess)
    (file : string) (args : list string) (options : IPtySpawnOptions) (s : State)
  : PtyAdapterProcess * State :=
  let s' := snd (run rt (logDebug rt "Using fallback PTY adapter with child_process" []) s) in
  (new_PtyAdapterProcess (host_spawn (fallback_request rt file args options)), s').

(** What the child process tells its handle.  The 'exit' event of
    [child_process] carries the exit code or [null], and the name of the
    signal that ended the process (a string such as 'SIGTERM') or [null];
    the handler's annotation [number | null] is not checked at run time. *)
Inductive Notification : Type :=
| StdoutData (data : string)
| StderrData (data : string)
| Exit (code : option Z) (signal : option string)
| Error (err : JsThrown).

(** A call of a registered listener, by the listener's id. *)
Inductive ListenerCall : Type :=
| DataCall (listener : nat) (data : string)
| ExitCall (listener : nat) (exitCode : Z) (exitSignal : ExitSignal).

Definition call_of (l : Listener) (e : Emitted) : ListenerCall :=
  match e with
  | EmitData data => DataCall (listener_id l) data
  | EmitExit exitCode exitSignal => ExitCall (listener_id l) exitCode exitSignal
  end.

(** [listeners.forEach(listener => listener(...))]: the listeners are
    called in order; there is no [try], so the first one that throws ends
    the loop and its exception leaves the handler. *)
Fixpoint forEach (listeners : list Listener) (e : Emitted)
  : list ListenerCall * option JsThrown :=
  match listeners with
  | [] => ([], None)
  | l :: rest =>
      match listener_body l e with
      | Normal _ =>
          let '(calls, thrown) := forEach rest e in (call_of l e :: calls, thrown)
      | Thrown err => ([call_of l e], Some err)
      end
  end.

(** [signal ?? 0] *)
Definition signal_or_zero (signal : option string) : ExitSignal :=
  match signal with
  | Some name => SignalName name
  | None => SignalNumber 0
  end.

(** The handlers installed by the constructor: the listener calls made,
    the exception that left the handler if a listener threw, and the
    console afterwards. *)
Definition notify (rt : Runtime) (n : Notification) (p : PtyAdapterProcess) (s : State)
  : list ListenerCall * option JsThrown * State :=
  match n with
  | StdoutData data =>
      (if has_stdout (process p)
       then forEach (dataListeners p) (EmitData data)
       else ([], None), s)
  | StderrData data =>
      (if has_stderr (process p)
       then forEach (dataListeners p) (EmitData data)
       else ([], None), s)
  | Exit code signal =>
      let exitCode := default (-1) code in
      let exitSignal := signal_or_zero signal in
      (forEach (exitListeners p) (EmitExit exitCode exitSignal), s)
  | Error err =>
      ([], None, snd (run rt (logError "PTY adapter process error:" (Some err)) s))
  end.

Inductive EventName : Type := EvData | EvExit.

Definition on (event : EventName) (listener : Listener) (p : PtyAdapterProcess)
  : PtyAdapterProcess :=
  match event with
  | EvData =>
      mkAdapterProcess (pid p) (process p) (dataListeners p ++ [listener]) (exitListeners p)
  | EvExit =>
      mkAdapterProcess (pid p) (process p) (dataListeners p) (exitListeners p ++ [listener])
  end.

Definition with_stdin (w : Writable) (c : ChildProcess) : ChildProcess :=
  mkChild (child_pid c) (Some w) (has_stdout c) (has_stderr c) (kill_calls c).

(** [this.process.stdin?.write(data)] *)
Definition write (host_write : HostWrite) (data : string) (p : PtyAdapterProcess)
  : Completion unit * PtyAdapterProcess :=
  match stdin (process p) with
  | None => (Normal tt, p)
  | Some w =>
      let '(c, w') := host_write w data in
      (c, mkAdapterProcess (pid p) (with_stdin w' (process p))
            (dataListeners p) (exitListeners p))
  end.

(** [logDebug('Resize not supported in fallback adapter')] *)
Definition resize (rt : Runtime) (_cols _rows : Z) (p : PtyAdapterProcess) (s : State)
  : Completion unit * PtyAdapterProcess * State :=
  let '(c, s') := run rt (logDebug rt "Resize not supported in fallback adapter" []) s in
  (c, p, s').

(** [this.process.kill()] *)
Definition kill (p : PtyAdapterProcess) : PtyAdapterProcess :=
  let c := process p in
  mkAdapterProcess (pid p)
    (mkChild (child_pid c) (stdin c) (has_stdout c) (has_stderr c) (S (kill_calls c)))
    (dataListeners p) (exitListeners p).

(** The life of a session: notifications from the child and operations of
    the caller, in the order they happen. *)
Inductive Operation : Type :=
| OpOn (event : EventName) (listener : Listener)
| OpWrite (data : string)
| OpResize (cols rows : Z)
| OpKill.

Inductive Input : Type :=
| Host (n : Notification)
| Op (o : Operation).

(** What the caller sees: its listeners being called, an exception of a
    listener leaving the session's handler (nothing in the session catches
    it), its operations returning or throwing. *)
Inductive Observation : Type :=
| Heard (c : ListenerCall)
| Escaped (e : JsThrown)
| Returned (c : Completion unit).

Definition operate (rt : Runtime) (host_write : HostWrite) (o : Operation)
    (p : PtyAdapterProcess) (s : State) : Completion unit * PtyAdapterProcess * State :=
  match o with
  | OpOn event listener => (Normal tt, on event listener p, s)
  | OpWrite data => let '(c, p') := write host_write data p in (c, p', s)
  | OpResize cols rows => resize rt cols rows p s
  | OpKill => (Normal tt, kill p, s)
  end.

Definition react (rt : Runtime) (host_write : HostWrite) (i : Input)
    (p : PtyAdapterProcess) (s : State) : list Observation * PtyAdapterProcess * State :=
  match i with
  | Host n =>
      let '(calls, thrown, s') := notify rt n p s in
      (map Heard calls ++ match thrown with Some e => [Escaped e] | None => [] end, p, s')
  | Op o => let '(c, p', s') := operate rt host_write o p s in ([Returned c], p', s')
  end.

Fixpoint play (rt : Runtime) (host_write : HostWrite) (tl : list Input)
    (p : PtyAdapterProcess) (s : State) : list Observation * PtyAdapterProcess * State :=
  match tl with
  | [] => ([], p, s)
  | i :: tl' =>
      let '(obs, p', s') := react rt host_write i p s in
      let '(obs', p'', s'') := play rt host_write tl' p' s' in
      (obs ++ obs', p'', s'')
  end.

Definition heard (obs : list Observation) : list ListenerCall :=
  omap (fun o => match o with Heard c => Some c | _ => None end) obs.

Definition is_exit_call (c : ListenerCall) : bool :=
  match c with ExitCall _ _ _ => true | DataCall _ _ => false end.

Definition is_exit_notification (i : Input) : bool :=
  match i with Host (Exit _ _) => true | _ => false end.

(** The listener calls of a played timeline, and the session it ends in. *)
Definition calls_of (r : list Observation * PtyAdapterProcess * State) : list ListenerCall :=
  heard (fst (fst r)).

Definition session_of (r : list Observation * PtyAdapterProcess * State) : PtyAdapterProcess :=
  snd (fst r).

Definition is_data_call (c : ListenerCall) : bool := negb (is_exit_call c).

Definition no_exit_notification (tl : list Input) : bool :=
  forallb (fun i => negb (is_exit_notification i)) tl.

(** A listener that returns whatever it is called with. *)
Definition quiet_listener (id : nat) : Listener :=
  mkListener id (fun _ => Normal tt).

(** A listener that throws on every call. *)
Definition throwing_listener (id : nat) : Listener :=
  mkListener id (fun _ => Thrown (JsError "listener failed" None)).

(** The listeners a round of calls reaches: all of them up to and
    including the first that throws. *)
Fixpoint reached (listeners : list Listener) (e : Emitted) : list Listener :=
  match listeners with
  | [] => []
  | l :: rest =>
      match listener_body l e with
      | Normal _ => l :: reached rest e
      | Thrown _ => [l]
      end
  end.

(** A host whose [write] drops what is written to a destroyed stream and
    appends otherwise, never throwing. *)
Definition quiet_write : HostWrite :=
  fun w data =>
    if destroyed w then (Normal tt, w)
    else (Normal tt, mkWritable false (accepted w ++ [data])).

Definition piped_child : ChildProcess :=
  mkChild 1234 (Some (mkWritable false [])) true true 0.

(** The same child once it has exited and its input stream is destroyed. *)
Definition exited_child : ChildProcess :=
  mkChild 1234 (Some (mkWritable true [])) true true 0.

(* ===================================================================== *)
(** ** The resolution algorithm over a list of providers *)
(* ===================================================================== *)

(** A provider: its name and the module handed to the loader. *)
Record ProviderDescriptor : Type := mkProvider {
  identifier : PtyProviderName;
  loaderTarget : string
}.

(** The providers of getPty.ts in the order the code tries them. *)
Definition providers : list ProviderDescriptor :=
  [ mkProvider mmmbuto_node_pty termux_module;
    mkProvider lydell_node_pty_linux_arm64 linux_arm64_module ].

(** The guards of [getPty]: priority 2 is for non-Termux Linux ARM64. *)
Definition applicable (rt : Runtime) (d : ProviderDescriptor) : bool :=
  match identifier d with
  | mmmbuto_node_pty => isTermux rt
  | lydell_node_pty_linux_arm64 => negb (isTermux rt) && isLinuxArm64 rt
  end.

(** Each provider's own platform predicate, as the specification's
    classifier has it: Linux ARM64 is applicable on every Linux ARM64. *)
Definition spec_applicable (rt : Runtime) (d : ProviderDescriptor) : bool :=
  match identifier d with
  | mmmbuto_node_pty => isTermux rt
  | lydell_node_pty_linux_arm64 => isLinuxArm64 rt
  end.

(** Try the loader on each provider in turn and stop at the first one that
    is available. *)
Fixpoint resolve_in_order (rt : Runtime) (ds : list ProviderDescriptor) (s : State)
  : PtyImplementation * State :=
  match ds with
  | [] => (None, s)
  | d :: ds' =>
      match run rt (loadProvider rt (loaderTarget d) (identifier d)) s with
      | (Normal (Some impl), s') => (Some impl, s')
      | (_, s') => resolve_in_order rt ds' s'
      end
  end.

(** The specification's resolution: its classifier, then the loop. *)
Definition spec_resolve (rt : Runtime) (s : State) : PtyImplementation * State :=
  resolve_in_order rt (List.filter (spec_applicable rt) providers) s.

(** [n] calls of [getPty()], each awaited before the next. *)
Fixpoint call_repeatedly (rt : Runtime) (n : nat) (s : State)
  : list (Completion PtyImplementation) * State :=
  match n with
  | O => ([], s)
  | S n' =>
      let '(c, s') := run rt (getPty rt) s in
      let '(cs, s'') := call_repeatedly rt n' s' in
      (c :: cs, s'')
  end.

(** The provider a call returned, if any. *)
Definition provider_of (c : Completion PtyImplementation) : option PtyProviderName :=
  match c with
  | Normal r => name <$> r
  | Thrown _ => None
  end.

(** How often [moduleName] was handed to [import()]. *)
Definition load_attempts (moduleName : string) (s : State) : nat :=
  length (List.filter (String.eqb moduleName) (loads s)).

(** What the loader returns for a module, and what it prints, read off the
    way the import settles. *)
Definition load_result (rt : Runtime) (moduleName : string) (nm : PtyProviderName)
  : PtyImplementation :=
  match dynamic_import rt moduleName with
  | ImportOk m =>
      match export_spawn (default_or_self m) with
      | Some f => Some (mkNativePty (mkNative f) nm)
      | None => None
      end
  | ImportFail _ => None
  end.

Definition debug_line (rt : Runtime) (message : string) (args : list LogArg)
  : list LogLine :=
  if PTY_DEBUG rt then [mkLogLine SevDebug ("[PTY] " +:+ message) args] else [].

Definition error_line (message : string) (e : JsThrown) : LogLine :=
  mkLogLine SevError ("[PTY] " +:+ message)
    [if truthy e then ArgThrown e else ArgString ""].

(** An import failure the loader reports on the error sink. *)
Definition unexpected (e : JsThrown) : bool :=
  instanceof_Error e && bool_decide (thrown_code e ≠ Some "MODULE_NOT_FOUND").

Definition load_prints (rt : Runtime) (moduleName : string) : list LogLine :=
  match dynamic_import rt moduleName with
  | ImportOk m =>
      match export_spawn (default_or_self m) with
      | Some _ => debug_line rt "Native module loaded:" [ArgString moduleName]
      | None => debug_line rt "Native module invalid export: missing spawn function" []
      end
  | ImportFail e =>
      if unexpected e
      then [error_line "Unexpected error loading native module:" e]
      else []
  end.

(** The line a load of [moduleName] puts on the error sink, if any. *)
Definition load_error_lines (rt : Runtime) (moduleName : string) : list LogLine :=
  match dynamic_import rt moduleName with
  | ImportFail e =>
      if unexpected e
      then [error_line "Unexpected error loading native module:" e]
      else []
  | ImportOk _ => []
  end.

(** An import that does not reach the error sink. *)
Definition quiet_import (o : ImportOutcome) : bool :=
  match o with
  | ImportOk _ => true
  | ImportFail e => negb (unexpected e)
  end.

Definition is_error_notification (i : Input) : bool :=
  match i with Host (Error _) => true | _ => false end.

Definition no_error_notification (tl : list Input) : bool :=
  forallb (fun i => negb (is_error_notification i)) tl.

Definition add_prints (s : State) (ls : list LogLine) : State :=
  mkState (cached s) (printed s ++ ls) (loads s).

Definition add_load (s : State) (m : string) : State :=
  mkState (cached s) (printed s) (loads s ++ [m]).

(** The classifier of the code: the providers whose guard holds, in
    priority order. *)
Definition classify (rt : Runtime) : list ProviderDescriptor :=
  List.filter (applicable rt) providers.

Definition write_cache (v : PtyImplementation) (s : State) : State :=
  mkState (Some v) (printed s) (loads s).

(** The state once the loader has been run on [moduleName]. *)
Definition after_load (rt : Runtime) (s : State) (moduleName : string) : State :=
  add_prints (add_load s moduleName) (load_prints rt moduleName).

(* ===================================================================== *)
(** ** What programs print, and where suspended calls end *)
(* ===================================================================== *)

(** The line starts with the prefix of config.ts. *)
Definition tagged (l : LogLine) : bool := String.prefix "[PTY] " (text l).

(** Every line the program can print, however its imports settle and
    whatever the cache holds, satisfies [P]. *)
Inductive Prints (P : LogLine -> Prop) {A : Type} : Prog A -> Prop :=
| Prints_Ret (a : A) : Prints P (Ret a)
| Prints_Throw (e : JsThrown) : Prints P (Throw e)
| Prints_GetCached k : (forall c, Prints P (k c)) -> Prints P (GetCached k)
| Prints_SetCached v k : Prints P k -> Prints P (SetCached v k)
| Prints_Console l k : P l -> Prints P k -> Prints P (Console l k)
| Prints_AwaitImport m k : (forall o, Prints P (k o)) -> Prints P (AwaitImport m k)
| Prints_AwaitTick k : Prints P k -> Prints P (AwaitTick k).

(** What one awaited [getPty()] returns when the module has just been
    loaded. *)
Definition resolved (rt : Runtime) : PtyImplementation :=
  match fst (run rt (getPty rt) initial) with
  | Normal r => r
  | Thrown _ => None
  end.

(** The rest of a call that is past its import: it reads neither the cache
    nor a module again, writes [r] to the cache if it writes at all, and
    returns [r]. *)
Inductive Settles (r : PtyImplementation) : Prog PtyImplementation -> Prop :=
| Settles_Ret : Settles r (Ret r)
| Settles_SetCached k : Settles r k -> Settles r (SetCached r k)
| Settles_Console l k : Settles r k -> Settles r (Console l k)
| Settles_AwaitTick k : Settles r k -> Settles r (AwaitTick k).

(** The cache is empty or holds [r]. *)
Definition cache_ok (r : PtyImplementation) (s : State) : Prop :=
  cached s = None \/ cached s = Some r.

(** What holds of the scheduler after any events: the cache is empty or
    holds the resolved value, every suspended call is past its import and
    will return that value, every call that returned has returned it, and
    no more modules were handed to [import()] than calls were made. *)
Definition sched_ok (rt : Runtime) (sc : Sched) : Prop :=
  cache_ok (resolved rt) (modstate sc) /\
  Forall (fun t => Settles (resolved rt) (snd t)) (in_flight sc) /\
  Forall (fun t => snd t = Normal (resolved rt)) (returned sc) /\
  (length (loads (modstate sc)) <= started sc)%nat.

(** The [getPty()] calls among the events. *)
Definition calls_made (evs : list Event) : nat :=
  length (List.filter (fun ev => match ev with Call => true | Resume _ => false end) evs).

(** A module whose [default] export has no [spawn] while the namespace
    itself exports one. *)
Definition masked_module : ModuleNs :=
  mkModule (Some (mkExport None)) (mkExport (Some spawn_ok)).

Definition rt_android_masked : Runtime :=
  mkRuntime "android" "arm64" ∅ (fun _ => ImportOk masked_module).

(* ===================================================================== *)
(** ** Reading a session's timeline *)
(* ===================================================================== *)

(** The chunk of a stdout or stderr notification. *)
Definition data_payload (i : Input) : option string :=
  match i with
  | Host (StdoutData d) | Host (StderrData d) => Some d
  | _ => None
  end.

Definition only_data (tl : list Input) : bool :=
  forallb (fun i => bool_decide (is_Some (data_payload i))) tl.

(** The listeners registered for [event] along the timeline, in order. *)
Definition registered (event : EventName) (tl : list Input) : list Listener :=
  omap (fun i =>
    match i, event with
    | Op (OpOn EvData l), EvData => Some l
    | Op (OpOn EvExit l), EvExit => Some l
    | _, _ => None
    end) tl.

(** What the caller wrote along the timeline, in order. *)
Definition written (tl : list Input) : list string :=
  omap (fun i => match i with Op (OpWrite d) => Some d | _ => None end) tl.

Definition kills (tl : list Input) : nat :=
  length (List.filter (fun i => match i with Op OpKill => true | _ => false end) tl).

(** The listeners a notification is delivered to. *)
Definition listeners_for (n : Notification) (p : PtyAdapterProcess) : list Listener :=
  match n with
  | StdoutData _ => if has_stdout (process p) then dataListeners p else []
  | StderrData _ => if has_stderr (process p) then dataListeners p else []
  | Exit _ _ => exitListeners p
  | Error _ => []
  end.

(** The input stream after the host has been handed the chunks in turn. *)
Definition feed (host_write : HostWrite) (w : option Writable) (chunks : list string)
  : option Writable :=
  fold_left (fun w d => (fun x => snd (host_write x d)) <$> w) chunks w.

(* ===================================================================== *)
(** ** scripts/build-cjs.cjs *)
(* ===================================================================== *)

(** [s.startsWith(p)] *)
Definition startsWith (s p : string) : bool := String.prefix p s.

(** [s.endsWith(suffix)] *)
Definition endsWith (s suffix : string) : bool :=
  bool_decide (String.list_ascii_of_string suffix `suffix_of` String.list_ascii_of_string s).

(** [s.replace(/\.js$/, '.cjs')]: without the [m] flag [$] is the end of the
    input, so only a trailing '.js' is replaced. *)
Definition replace_trailing_js (s : string) : string :=
  if endsWith s ".js" then
    String.string_of_list_ascii
      (take (length (String.list_ascii_of_string s) - 3) (String.list_ascii_of_string s)
       ++ String.list_ascii_of_string ".cjs")
  else s.

Definition rewriteSpec (spec : string) : string :=
  if startsWith spec "." && endsWith spec ".js" then replace_trailing_js spec
  else spec.

(* ===================================================================== *)
(** ** Running programs *)
(* ===================================================================== *)

Section Running.
Context (rt : Runtime).

Lemma run_bind {A B} (p : Prog A) (f : A -> Prog B) (s : State) :
  run rt (bind p f) s =
  match run rt p s with
  | (Normal a, s') => run rt (f a) s'
  | (Thrown e, s') => (Thrown e, s')
  end.
Proof.
  revert s. induction p as [a|e|k IH|v k IH|l k IH|m k IH|k IH]; intros s; simpl; auto.
Qed.

Lemma run_mbind {A B} (p : Prog A) (f : A -> Prog B) (s : State) :
  run rt (p ≫= f) s =
  match run rt p s with
  | (Normal a, s') => run rt (f a) s'
  | (Thrown e, s') => (Thrown e, s')
  end.
Proof. apply run_bind. Qed.

Lemma run_try_catch {A} (p : Prog A) (h : JsThrown -> Prog A) (s : State) :
  run rt (try_catch p h) s =
  match run rt p s with
  | (Normal a, s') => (Normal a, s')
  | (Thrown e, s') => run rt (h e) s'
  end.
Proof.
  revert s. induction p as [a|e|k IH|v k IH|l k IH|m k IH|k IH]; intros s; simpl; auto.
Qed.

Lemma run_await {A} (p : Prog A) (s : State) :
  run rt (await p) s = run rt p s.
Proof.
  unfold await. rewrite run_mbind. destruct (run rt p s) as [[a|e] s']; reflexivity.
Qed.

Lemma add_prints_nil (s : State) : add_prints s [] = s.
Proof. destruct s; unfold add_prints; simpl. by rewrite app_nil_r. Qed.

Lemma run_logDebug (message : string) (args : list LogArg) (s : State) :
  run rt (logDebug rt message args) s = (Normal tt, add_prints s (debug_line rt message args)).
Proof.
  unfold logDebug, debug_line. destruct (PTY_DEBUG rt); simpl.
  - reflexivity.
  - by rewrite add_prints_nil.
Qed.

Lemma run_logError (message : string) (e : JsThrown) (s : State) :
  run rt (logError message (Some e)) s = (Normal tt, add_prints s [error_line message e]).
Proof. reflexivity. Qed.

Lemma run_loadProvider (moduleName : string) (nm : PtyProviderName) (s : State) :
  run rt (loadProvider rt moduleName nm) s =
  (Normal (load_result rt moduleName nm),
   add_prints (add_load s moduleName) (load_prints rt moduleName)).
Proof.
  unfold loadProvider, load_result, load_prints.
  rewrite run_try_catch, run_mbind. simpl.
  destruct (dynamic_import rt moduleName) as [m|e]; simpl.
  - destruct (export_spawn (default_or_self m)) as [f|];
      rewrite run_mbind, run_logDebug; reflexivity.
  - unfold loadProvider_catch. rewrite run_mbind.
    unfold unexpected. destruct (instanceof_Error e && _); simpl.
    + reflexivity.
    + by rewrite add_prints_nil.
Qed.

Lemma run_getPty_fallback (s : State) :
  run rt (getPty_fallback rt) s =
  (Normal None,
   write_cache None
     (add_prints s (debug_line rt "Using fallback PTY adapter with child_process" []))).
Proof.
  unfold getPty_fallback. rewrite run_mbind, run_logDebug. reflexivity.
Qed.

Lemma run_getPty_linux_arm64 (s : State) :
  run rt (getPty_linux_arm64 rt) s =
  if negb (isTermux rt) && isLinuxArm64 rt then
    match load_result rt linux_arm64_module lydell_node_pty_linux_arm64 with
    | Some impl =>
        (Normal (Some impl), write_cache (Some impl) (after_load rt s linux_arm64_module))
    | None =>
        run rt (getPty_fallback rt)
          (add_prints (after_load rt s linux_arm64_module)
             (debug_line rt "Linux ARM64 PTY not found, using fallback adapter" []))
    end
  else run rt (getPty_fallback rt) s.
Proof.
  unfold getPty_linux_arm64.
  destruct (negb (isTermux rt) && isLinuxArm64 rt); [|reflexivity].
  rewrite run_mbind, run_await, run_loadProvider.
  destruct (load_result rt linux_arm64_module lydell_node_pty_linux_arm64) as [impl|].
  - reflexivity.
  - rewrite run_mbind, run_logDebug. reflexivity.
Qed.

Lemma run_getPty_termux (s : State) :
  run rt (getPty_termux rt) s =
  if isTermux rt then
    match load_result rt termux_module mmmbuto_node_pty with
    | Some impl =>
        (Normal (Some impl), write_cache (Some impl) (after_load rt s termux_module))
    | None =>
        run rt (getPty_linux_arm64 rt)
          (add_prints (after_load rt s termux_module)
             (debug_line rt "Termux PTY not found, trying next provider" []))
    end
  else run rt (getPty_linux_arm64 rt) s.
Proof.
  unfold getPty_termux.
  destruct (isTermux rt); [|reflexivity].
  rewrite run_mbind, run_await, run_loadProvider.
  destruct (load_result rt termux_module mmmbuto_node_pty) as [impl|].
  - reflexivity.
  - rewrite run_mbind, run_logDebug. reflexivity.
Qed.

(** A call that finds the cache written returns it and touches nothing. *)
Lemma getPty_cache_hit (s : State) (v : PtyImplementation) :
  cached s = Some v -> run rt (getPty rt) s = (Normal v, s).
Proof. intros H. unfold getPty. rewrite run_mbind. simpl. rewrite H. reflexivity. Qed.

Lemma getPty_cache_miss (s : State) :
  cached s = None -> run rt (getPty rt) s = run rt (getPty_termux rt) s.
Proof. intros H. unfold getPty. rewrite run_mbind. simpl. rewrite H. reflexivity. Qed.

End Running.


(* ===================================================================== *)
(** ** The model at work *)
(* ===================================================================== *)

Example includes_termux_prefix :
  includes "/data/data/com.termux/files/usr" "com.termux" = true /\
  includes "/usr" "com.termux" = false /\
  includes "" "" = true.
Proof. vm_compute. repeat split; reflexivity. Qed.

Example getPty_on_android :
  provider_of (fst (run rt_android (getPty rt_android) initial)) = Some mmmbuto_node_pty /\
  loads (snd (run rt_android (getPty rt_android) initial)) = [termux_module] /\
  printed (snd (run rt_android (getPty rt_android) initial)) = [].
Proof. vm_compute. repeat split; reflexivity. Qed.

Example getPty_on_android_with_debug :
  printed (snd (run rt_android_debug (getPty rt_android_debug) initial))
  = [mkLogLine SevDebug "[PTY] Native module loaded:" [ArgString termux_module]].
Proof. vm_compute. reflexivity. Qed.

Example getPty_on_x64 :
  fst (run rt_x64 (getPty rt_x64) initial) = Normal None /\
  loads (snd (run rt_x64 (getPty rt_x64) initial)) = [] /\
  cached (snd (run rt_x64 (getPty rt_x64) initial)) = Some None.
Proof. vm_compute. repeat split; reflexivity. Qed.

Example getPty_shapeless_module :
  fst (run rt_android_shapeless (getPty rt_android_shapeless) initial) = Normal None /\
  fst (run rt_android_nothing (getPty rt_android_nothing) initial) = Normal None.
Proof. vm_compute. split; reflexivity. Qed.

Example spawnPty_without_native :
  fst (run rt_x64 (spawnPty rt_x64 "bash" ["-c"; "echo test"] no_options) initial)
  = Thrown (JsPtyError (mkPtyError "Native PTY not available" NATIVE_NOT_FOUND)).
Proof. vm_compute. reflexivity. Qed.

Example spawnPty_spawn_fails :
  fst (run rt_android_spawn_fails
         (spawnPty rt_android_spawn_fails "bash" [] no_options) initial)
  = Thrown (JsPtyError (mkPtyError "forkpty(3) failed." SPAWN_FAILED)).
Proof. vm_compute. reflexivity. Qed.

Example spawnPty_on_android :
  fst (run rt_android (spawnPty rt_android "bash" [] no_options) initial)
  = Normal (mkIPty 4242).
Proof. vm_compute. reflexivity. Qed.

(** Two calls, one after the other: one load. *)
Example two_calls_in_sequence :
  let sc := exec rt_android [Call; Resume 0; Resume 0; Call] boot in
  loads (modstate sc) = [termux_module] /\
  map (fun t => (fst t, provider_of (snd t))) (returned sc)
    = [(0%nat, Some mmmbuto_node_pty); (1%nat, Some mmmbuto_node_pty)].
Proof. vm_compute. split; reflexivity. Qed.

Example fallback_session_echo :
  calls_of (play rt_x64 quiet_write
    [Op (OpOn EvData (quiet_listener 1)); Op (OpOn EvExit (quiet_listener 2));
     Op (OpWrite "ls");
     Host (StdoutData "a"); Host (StderrData "b"); Host (Exit (Some 3) None)]
    (new_PtyAdapterProcess piped_child) initial)
  = [DataCall 1%nat "a"; DataCall 1%nat "b"; ExitCall 2%nat 3 (SignalNumber 0)].
Proof. vm_compute. reflexivity. Qed.

Example fallback_session_killed :
  calls_of (play rt_x64 quiet_write
    [Op (OpOn EvExit (quiet_listener 2)); Op OpKill; Host (Exit None (Some "SIGTERM"))]
    (new_PtyAdapterProcess piped_child) initial)
  = [ExitCall 2%nat (-1) (SignalName "SIGTERM")].
Proof. vm_compute. reflexivity. Qed.

(** A data listener that throws: the listener after it is not called, and
    the exception leaves the handler. *)
Example fallback_session_listener_throws :
  fst (fst (play rt_x64 quiet_write
    [Host (StdoutData "a")]
    (on EvData (quiet_listener 3)
       (on EvData (throwing_listener 2)
          (on EvData (quiet_listener 1) (new_PtyAdapterProcess piped_child))))
    initial))
  = [Heard (DataCall 1%nat "a"); Heard (DataCall 2%nat "a");
     Escaped (JsError "listener failed" None)].
Proof. vm_compute. reflexivity. Qed.

(** A package that is not installed: [import()] rejects with
    'ERR_MODULE_NOT_FOUND', which is not the code the loader compares with,
    so the failure is printed on the error sink; a failure with the code of
    [require()] is not. *)
Example missing_package_is_printed :
  printed (snd (run rt_android_nothing (getPty rt_android_nothing) initial))
  = [mkLogLine SevError "[PTY] Unexpected error loading native module:"
       [ArgThrown (JsError "Cannot find package '@mmmbuto/node-pty-android-arm64'"
                     (Some "ERR_MODULE_NOT_FOUND"))]] /\
  printed (snd (run (mkRuntime "android" "arm64" ∅ not_found_by_require)
                  (getPty (mkRuntime "android" "arm64" ∅ not_found_by_require)) initial))
  = [].
Proof. vm_compute. split; reflexivity. Qed.
(* ===================================================================== *)
(** ** Resolution: priority order *)
(* ===================================================================== *)

(** C1, as amended: when the cache is empty, [getPty] hands to the loader
    the providers whose guard in the code holds (Termux when [isTermux];
    Linux ARM64 when [isLinuxArm64] and not [isTermux]), in priority order,
    stops at the first one that is available, returns it (or [null] when
    there is none) and writes it to the cache. *)
Theorem getPty_priority_order (rt : Runtime) (s : State) :
  cached s = None ->
  fst (run rt (getPty rt) s) = Normal (fst (resolve_in_order rt (classify rt) s)) /\
  loads (snd (run rt (getPty rt) s)) = loads (snd (resolve_in_order rt (classify rt) s)) /\
  cached (snd (run rt (getPty rt) s)) = Some (fst (resolve_in_order rt (classify rt) s)).
Proof.
  intros H. rewrite (getPty_cache_miss rt s H), run_getPty_termux.
  unfold classify, providers, applicable; cbn [List.filter identifier].
  destruct (isTermux rt) eqn:HT; cbn [negb andb resolve_in_order identifier loaderTarget].
  - rewrite run_loadProvider.
    destruct (load_result rt termux_module mmmbuto_node_pty) as [impl|];
      [split; [|split]; reflexivity|].
    rewrite run_getPty_linux_arm64, HT. cbn [negb andb].
    rewrite run_getPty_fallback. split; [|split]; reflexivity.
  - rewrite run_getPty_linux_arm64, HT. cbn [negb andb].
    destruct (isLinuxArm64 rt); cbn [resolve_in_order identifier loaderTarget].
    + rewrite run_loadProvider.
      destruct (load_result rt linux_arm64_module lydell_node_pty_linux_arm64) as [impl|];
        [split; [|split]; reflexivity|].
      rewrite run_getPty_fallback. split; [|split]; reflexivity.
    + rewrite run_getPty_fallback. split; [|split]; reflexivity.
Qed.

Lemma getPty_priority_order_witness :
  fst (run rt_linux_arm64 (getPty rt_linux_arm64) initial)
    = Normal (fst (resolve_in_order rt_linux_arm64 (classify rt_linux_arm64) initial)) /\
  name <$> fst (resolve_in_order rt_linux_arm64 (classify rt_linux_arm64) initial)
    = Some lydell_node_pty_linux_arm64.
Proof.
  split.
  - apply (getPty_priority_order rt_linux_arm64 initial). reflexivity.
  - vm_compute. reflexivity.
Defined.

(** C1 as stated fails: with [PREFIX] naming Termux on a Linux ARM64 host
    both platform predicates hold, the Termux module is not installed and
    the Linux ARM64 module is; trying the applicable providers in priority
    order gives the Linux ARM64 provider, and [getPty] returns [null]
    without ever loading it. *)
Lemma getPty_skips_linux_arm64_on_termux :
  isTermux rt_termux_linux_arm64 = true /\
  isLinuxArm64 rt_termux_linux_arm64 = true /\
  load_result rt_termux_linux_arm64 termux_module mmmbuto_node_pty = None /\
  name <$> load_result rt_termux_linux_arm64 linux_arm64_module lydell_node_pty_linux_arm64
    = Some lydell_node_pty_linux_arm64 /\
  name <$> fst (spec_resolve rt_termux_linux_arm64 initial)
    = Some lydell_node_pty_linux_arm64 /\
  fst (run rt_termux_linux_arm64 (getPty rt_termux_linux_arm64) initial) = Normal None /\
  loads (snd (run rt_termux_linux_arm64 (getPty rt_termux_linux_arm64) initial))
    = [termux_module].
Proof. vm_compute. repeat split; reflexivity. Qed.

(* ===================================================================== *)
(** ** Resolution: what one call does *)
(* ===================================================================== *)

Lemma debug_line_off (rt : Runtime) (message : string) (args : list LogArg) :
  PTY_DEBUG rt = false -> debug_line rt message args = [].
Proof. intros H. unfold debug_line. by rewrite H. Qed.

Lemma load_prints_off (rt : Runtime) (moduleName : string) :
  PTY_DEBUG rt = false ->
  Forall (fun l => severity l = SevError) (load_prints rt moduleName) /\
  (quiet_import (dynamic_import rt moduleName) = true -> load_prints rt moduleName = []).
Proof.
  intros H. unfold load_prints, quiet_import.
  destruct (dynamic_import rt moduleName) as [m|e].
  - destruct (export_spawn (default_or_self m)); rewrite debug_line_off by done; auto.
  - destruct (unexpected e); split; auto; discriminate.
Qed.

(** One call of [getPty], awaited: it returns (it never throws), the cache
    then holds what it returned, the modules it handed to [import()] are
    pairwise different, and a call that found the cache written handed
    none and printed nothing. *)
Lemma getPty_summary (rt : Runtime) (s : State) :
  exists r ls ps,
    run rt (getPty rt) s = (Normal r, mkState (Some r) (printed s ++ ps) (loads s ++ ls)) /\
    NoDup ls /\
    (cached s <> None -> ls = [] /\ ps = []) /\
    (PTY_DEBUG rt = false ->
       Forall (fun l => severity l = SevError) ps /\
       ((forall m, quiet_import (dynamic_import rt m) = true) -> ps = [])).
Proof.
  destruct (cached s) as [v|] eqn:Hc.
  - exists v, [], []. rewrite (getPty_cache_hit rt s v Hc), !app_nil_r.
    destruct s; simpl in *; subst. repeat split; auto using NoDup_nil_2.
  - rewrite (getPty_cache_miss rt s Hc), run_getPty_termux.
    destruct (isTermux rt) eqn:HT.
    + destruct (load_result rt termux_module mmmbuto_node_pty) as [impl|].
      * exists (Some impl), [termux_module], (load_prints rt termux_module).
        repeat split; try done.
        -- apply NoDup_singleton.
        -- by apply load_prints_off.
        -- intros Hq. by apply load_prints_off.
      * rewrite run_getPty_linux_arm64, HT. cbn [negb andb].
        rewrite run_getPty_fallback.
        exists None, [termux_module],
          (load_prints rt termux_module
           ++ debug_line rt "Termux PTY not found, trying next provider" []
           ++ debug_line rt "Using fallback PTY adapter with child_process" []).
        repeat split; try done.
        -- unfold write_cache, add_prints, after_load, add_load; simpl.
           by rewrite <- !app_assoc.
        -- apply NoDup_singleton.
        -- rewrite !debug_line_off, !app_nil_r by done. by apply load_prints_off.
        -- intros Hq. rewrite !debug_line_off, !app_nil_r by done.
           by apply load_prints_off.
    + rewrite run_getPty_linux_arm64, HT. cbn [negb andb].
      destruct (isLinuxArm64 rt).
      * destruct (load_result rt linux_arm64_module lydell_node_pty_linux_arm64) as [impl|].
        -- exists (Some impl), [linux_arm64_module], (load_prints rt linux_arm64_module).
           repeat split; try done.
           ++ apply NoDup_singleton.
           ++ by apply load_prints_off.
           ++ intros Hq. by apply load_prints_off.
        -- rewrite run_getPty_fallback.
           exists None, [linux_arm64_module],
             (load_prints rt linux_arm64_module
              ++ debug_line rt "Linux ARM64 PTY not found, using fallback adapter" []
              ++ debug_line rt "Using fallback PTY adapter with child_process" []).
           repeat split; try done.
           ++ unfold write_cache, add_prints, after_load, add_load; simpl.
              by rewrite <- !app_assoc.
           ++ apply NoDup_singleton.
           ++ rewrite !debug_line_off, !app_nil_r by done. by apply load_prints_off.
           ++ intros Hq. rewrite !debug_line_off, !app_nil_r by done.
              by apply load_prints_off.
      * rewrite run_getPty_fallback.
        exists None, [], (debug_line rt "Using fallback PTY adapter with child_process" []).
        repeat split; try done.
        -- unfold write_cache, add_prints; simpl. by rewrite app_nil_r.
        -- apply NoDup_nil_2.
        -- by rewrite debug_line_off.
        -- intros _. by rewrite debug_line_off.
Qed.

(** The two interpreters agree: awaiting a call is letting it run to the
    [await] it suspends at and then awaiting the rest. *)
Lemma run_advance {A : Type} (rt : Runtime) (p : Prog A) (s : State) :
  run rt p s =
  match advance rt p s with
  | (Done c, s') => (c, s')
  | (Suspended k, s') => run rt k s'
  end.
Proof.
  revert s. induction p as [a|e|k IH|v k IH|l k IH|m k IH|k IH]; intros s; cbn; auto.
Qed.

(* ===================================================================== *)
(** ** The first version of getPty *)
(* ===================================================================== *)

(** The one-provider [getPty] memoizes in the same way: a call that finds
    the cache written returns it and touches nothing, and a call that finds
    it empty returns, writes the cache and hands at most the Termux module
    to [import()]. *)
Lemma V1_getPty_memoized (rt : Runtime) (s : State) :
  (forall v, cached s = Some v -> run rt (V1.getPty rt) s = (Normal v, s)) /\
  (cached s = None ->
   exists r ps ls,
     run rt (V1.getPty rt) s = (Normal r, mkState (Some r) (printed s ++ ps) (loads s ++ ls)) /\
     (ls = [] \/ ls = [termux_module])).
Proof.
  split.
  - intros v H. unfold V1.getPty. rewrite run_mbind. cbn [get_cached run]. by rewrite H.
  - intros H. unfold V1.getPty. rewrite run_mbind. cbn [get_cached run]. rewrite H.
    destruct (negb (V1.isAndroid rt)).
    + rewrite run_mbind, run_logDebug. cbn [run mbind Prog_bind bind set_cached].
      exists None, (debug_line rt "Not on Android/Termux, skipping native PTY" []), [].
      split; [|left; reflexivity].
      unfold add_prints; cbn [cached printed loads]. by rewrite app_nil_r.
    + rewrite run_try_catch, run_mbind. cbn [await_import run].
      destruct (dynamic_import rt termux_module) as [m|e]; cbn [run].
      * destruct (export_spawn (default_or_self m)) as [f|];
          rewrite run_mbind, run_logDebug; cbn [run mbind Prog_bind bind set_cached].
        -- exists (Some (mkNativePty (mkNative f) mmmbuto_node_pty)),
             (debug_line rt "Native module loaded:" [ArgString termux_module]),
             [termux_module].
           split; [reflexivity|right; reflexivity].
        -- exists None,
             (debug_line rt "Native module invalid export: missing spawn function" []),
             [termux_module].
           split; [reflexivity|right; reflexivity].
      * unfold V1.getPty_catch. rewrite run_mbind, run_logDebug, run_mbind.
        destruct (instanceof_Error e && _).
        -- rewrite run_logError. cbn [run mbind Prog_bind bind set_cached].
           exists None,
             (debug_line rt "Native module not found, using fallback adapter" []
              ++ [error_line "Unexpected error loading native module:" e]),
             [termux_module].
           split; [|right; reflexivity].
           unfold add_prints, add_load; cbn [cached printed loads].
           by rewrite <- app_assoc.
        -- cbn [run mbind Prog_bind bind set_cached].
           exists None,
             (debug_line rt "Native module not found, using fallback adapter" []),
             [termux_module].
           split; [reflexivity|right; reflexivity].
Qed.

(* ===================================================================== *)
(** ** The loader *)
(* ===================================================================== *)

(** C5: [loadProvider] always returns and never throws, whatever the
    import does.  A failed import gives [null], whatever was thrown; so
    does a module whose export (its [default] when it has one, else the
    namespace) has no [spawn]; a module whose export has a [spawn] gives
    the provider.  Whether a failed import reaches the error sink is
    decided by [instanceof Error] and the error's [code] alone: an [Error]
    with code 'MODULE_NOT_FOUND' prints nothing, an [Error] with any other
    code, or none, prints one line, and the message plays no part: two
    failures with the same code leave the same number of lines whatever
    their messages. *)
Theorem loadProvider_never_raises (rt : Runtime) (moduleName : string)
    (nm : PtyProviderName) (s : State) :
  (exists r s', run rt (loadProvider rt moduleName nm) s = (Normal r, s')) /\
  (forall e, dynamic_import rt moduleName = ImportFail e ->
     run rt (loadProvider rt moduleName nm) s =
     (Normal None,
      add_prints (add_load s moduleName)
        (if instanceof_Error e && bool_decide (thrown_code e ≠ Some "MODULE_NOT_FOUND")
         then [error_line "Unexpected error loading native module:" e]
         else []))) /\
  (forall m, dynamic_import rt moduleName = ImportOk m ->
     export_spawn (default_or_self m) = None ->
     fst (run rt (loadProvider rt moduleName nm) s) = Normal None) /\
  (forall m f, dynamic_import rt moduleName = ImportOk m ->
     export_spawn (default_or_self m) = Some f ->
     fst (run rt (loadProvider rt moduleName nm) s)
     = Normal (Some (mkNativePty (mkNative f) nm))) /\
  (forall message code, dynamic_import rt moduleName = ImportFail (JsError message code) ->
     run rt (loadProvider rt moduleName nm) s =
     (Normal None,
      add_prints (add_load s moduleName)
        (if bool_decide (code = Some "MODULE_NOT_FOUND") then []
         else [error_line "Unexpected error loading native module:"
                 (JsError message code)]))) /\
  (forall rt' message message' code,
     dynamic_import rt moduleName = ImportFail (JsError message code) ->
     dynamic_import rt' moduleName = ImportFail (JsError message' code) ->
     fst (run rt' (loadProvider rt' moduleName nm) s)
       = fst (run rt (loadProvider rt moduleName nm) s) /\
     map severity (printed (snd (run rt' (loadProvider rt' moduleName nm) s)))
       = map severity (printed (snd (run rt (loadProvider rt moduleName nm) s)))).
Proof.
  assert (forall r e, dynamic_import r moduleName = ImportFail e ->
     run r (loadProvider r moduleName nm) s =
     (Normal None,
      add_prints (add_load s moduleName)
        (if instanceof_Error e && bool_decide (thrown_code e ≠ Some "MODULE_NOT_FOUND")
         then [error_line "Unexpected error loading native module:" e]
         else []))) as Hfail.
  { intros r e He. rewrite run_loadProvider. unfold load_result, load_prints, unexpected.
    by rewrite He. }
  assert (forall r message code,
     dynamic_import r moduleName = ImportFail (JsError message code) ->
     run r (loadProvider r moduleName nm) s =
     (Normal None,
      add_prints (add_load s moduleName)
        (if bool_decide (code = Some "MODULE_NOT_FOUND") then []
         else [error_line "Unexpected error loading native module:"
                 (JsError message code)]))) as Hcode.
  { intros r message code He. rewrite (Hfail r _ He).
    cbn [instanceof_Error thrown_code andb].
    destruct (decide (code = Some "MODULE_NOT_FOUND")) as [->|Hne].
    - reflexivity.
    - by rewrite bool_decide_true, bool_decide_false. }
  split; [|split; [|split; [|split; [|split]]]].
  - rewrite run_loadProvider. eauto.
  - apply Hfail.
  - intros m Hm Hs. rewrite run_loadProvider. unfold load_result. by rewrite Hm, Hs.
  - intros m f Hm Hs. rewrite run_loadProvider. unfold load_result. by rewrite Hm, Hs.
  - apply Hcode.
  - intros rt' message message' code He He'.
    rewrite (Hcode rt _ _ He), (Hcode rt' _ _ He'). split; [reflexivity|].
    cbn [snd add_prints printed]. rewrite !map_app.
    by destruct (bool_decide (code = Some "MODULE_NOT_FOUND")).
Qed.

(* ===================================================================== *)
(** ** Memoization *)
(* ===================================================================== *)

Lemma advance_getPty_hit (rt : Runtime) (s : State) (v : PtyImplementation) :
  cached s = Some v -> advance rt (getPty rt) s = (Done (Normal v), s).
Proof. intros H. unfold getPty. simpl. by rewrite H. Qed.

Lemma call_repeatedly_hit (rt : Runtime) (n : nat) (s : State) (v : PtyImplementation) :
  cached s = Some v -> call_repeatedly rt n s = (replicate n (Normal v), s).
Proof.
  intros H. induction n as [|n IH]; cbn [call_repeatedly replicate]; [done|].
  by rewrite (getPty_cache_hit rt s v H), IH.
Qed.

Lemma NoDup_attempts (m : string) (ls : list string) :
  NoDup ls -> (length (List.filter (String.eqb m) ls) <= 1)%nat.
Proof.
  induction 1 as [|x l Hx Hl IH]; simpl; [lia|].
  destruct (String.eqb m x) eqn:E; [|done].
  apply String.eqb_eq in E; subst x. simpl.
  assert (List.filter (String.eqb m) l = []) as ->; [|simpl; lia].
  clear -Hx. induction l as [|y l IH]; simpl; [done|].
  destruct (String.eqb m y) eqn:E.
  - apply String.eqb_eq in E; subst y. exfalso. apply Hx. constructor.
  - apply IH. intros Hin. apply Hx. by constructor.
Qed.

(** C2, as amended: a call of [getPty] that starts once the cache is
    written returns the cached value at once, hands nothing to [import()]
    and changes nothing, whatever else is in flight; and when calls are
    made one after another, each awaited before the next, they all return
    what the first returned and each module is handed to [import()] at
    most once more than before. *)
Theorem getPty_memoized (rt : Runtime) :
  (forall sc v, cached (modstate sc) = Some v ->
     step rt sc Call =
     mkSched (modstate sc) (in_flight sc)
       (returned sc ++ [(started sc, Normal v)]) (S (started sc))) /\
  (forall n s, exists v s',
     call_repeatedly rt (S n) s = (replicate (S n) (Normal v), s') /\
     cached s' = Some v /\
     forall m, (load_attempts m s' <= S (load_attempts m s))%nat).
Proof.
  split.
  - intros sc v H. unfold step. by rewrite (advance_getPty_hit rt _ v H).
  - intros n s.
    destruct (getPty_summary rt s) as (r & ls & ps & Hrun & Hnd & _ & _).
    exists r, (mkState (Some r) (printed s ++ ps) (loads s ++ ls)).
    cbn [call_repeatedly]. rewrite Hrun, (call_repeatedly_hit rt n _ r) by done.
    repeat split.
    intros m. unfold load_attempts. cbn [loads].
    rewrite List.filter_app, length_app.
    pose proof (NoDup_attempts m ls Hnd). lia.
Qed.

(** C2 as stated fails: two calls made before the first one has settled
    both find the cache empty, and the Termux module is handed to
    [import()] twice in one process. *)
Lemma getPty_overlapping_calls_load_twice :
  let sc := exec rt_android [Call; Call; Resume 0; Resume 0; Resume 1; Resume 1] boot in
  load_attempts termux_module (modstate sc) = 2%nat /\
  map (fun t => (fst t, provider_of (snd t))) (returned sc)
    = [(0%nat, Some mmmbuto_node_pty); (1%nat, Some mmmbuto_node_pty)] /\
  length (in_flight sc) = 0%nat.
Proof. vm_compute. repeat split; reflexivity. Qed.

(** C10, as amended: the code keeps no in-flight resolution; a call looks
    at the cache only.  A call that arrives while the cache is still empty,
    whatever calls are in flight, starts a resolution of its own: when a
    provider is applicable it hands the module of the first applicable one
    to [import()] itself and joins the calls in flight; when none is
    applicable it imports nothing, writes [null] to the cache and returns
    [null] at once.  A call that arrives once the cache is written returns
    the cached value at once and imports nothing. *)
Theorem getPty_call_starts_its_own_loads (rt : Runtime) (sc : Sched) :
  (cached (modstate sc) = None ->
   forall d, head (classify rt) = Some d ->
   exists k,
     step rt sc Call =
     mkSched (add_load (modstate sc) (loaderTarget d))
       (in_flight sc ++ [(started sc, k)]) (returned sc) (S (started sc))) /\
  (cached (modstate sc) = None ->
   classify rt = [] ->
   exists s',
     step rt sc Call =
     mkSched s' (in_flight sc) (returned sc ++ [(started sc, Normal None)])
       (S (started sc)) /\
     cached s' = Some None /\ loads s' = loads (modstate sc)) /\
  (forall v, cached (modstate sc) = Some v ->
   step rt sc Call =
   mkSched (modstate sc) (in_flight sc) (returned sc ++ [(started sc, Normal v)])
     (S (started sc))).
Proof.
  split; [|split].
  - intros Hc d Hd. unfold step, getPty. cbn [advance mbind Prog_bind bind get_cached].
    rewrite Hc. cbn [bind].
    revert Hd. unfold classify, providers, applicable, getPty_termux, getPty_linux_arm64.
    cbn [List.filter identifier].
    destruct (isTermux rt); cbn [negb andb].
    + intros [= <-]. eexists. reflexivity.
    + destruct (isLinuxArm64 rt); cbn [head]; [|discriminate].
      intros [= <-]. eexists. reflexivity.
  - intros Hc Hn. unfold step, getPty. cbn [advance mbind Prog_bind bind get_cached].
    rewrite Hc. cbn [bind].
    revert Hn. unfold classify, providers, applicable, getPty_termux, getPty_linux_arm64,
      getPty_fallback, logDebug.
    cbn [List.filter identifier].
    destruct (isTermux rt); cbn [negb andb]; [discriminate|].
    destruct (isLinuxArm64 rt); [discriminate|]. intros _.
    destruct (PTY_DEBUG rt); cbn; eexists; repeat split.
  - intros v Hc. unfold step. by rewrite (advance_getPty_hit rt _ v Hc).
Qed.

Lemma getPty_call_starts_its_own_loads_witness :
  exists k,
    step rt_android (exec rt_android [Call] boot) Call =
    mkSched (add_load (modstate (exec rt_android [Call] boot)) termux_module)
      (in_flight (exec rt_android [Call] boot) ++ [(1%nat, k)]) [] 2.
Proof.
  apply (proj1 (getPty_call_starts_its_own_loads rt_android (exec rt_android [Call] boot))
           eq_refl (mkProvider mmmbuto_node_pty termux_module)); reflexivity.
Defined.

(** C10 as stated fails: a second call made while the first is suspended
    on its import starts a second load of the same module; two calls are
    then in flight, none has returned and the cache is still empty. *)
Lemma getPty_second_call_loads_again :
  let sc := exec rt_android [Call; Call] boot in
  map fst (in_flight sc) = [0%nat; 1%nat] /\
  length (returned sc) = 0%nat /\
  cached (modstate sc) = None /\
  loads (modstate sc) = [termux_module; termux_module].
Proof. vm_compute. repeat split; reflexivity. Qed.

(* ===================================================================== *)
(** ** spawnPty *)
(* ===================================================================== *)

(** C3: [spawnPty] throws [PtyError] with code [NATIVE_NOT_FOUND] when
    [getPty] gives [null]; otherwise it returns what the provider's [spawn]
    returns, and when that [spawn] throws it throws [PtyError] with code
    [SPAWN_FAILED], whose message is the message of the error thrown (or
    'Unknown spawn error' for a value that is not an [Error]). *)
Theorem spawnPty_error_contract (rt : Runtime) (file : string) (args : list string)
    (options : IPtySpawnOptions) (s : State) :
  match fst (run rt (getPty rt) s) with
  | Normal None =>
      fst (run rt (spawnPty rt file args options) s) =
      Thrown (JsPtyError (mkPtyError "Native PTY not available" NATIVE_NOT_FOUND))
  | Normal (Some impl) =>
      match spawn (module impl) file args options with
      | Normal p => fst (run rt (spawnPty rt file args options) s) = Normal p
      | Thrown e =>
          fst (run rt (spawnPty rt file args options) s) =
          Thrown (JsPtyError (mkPtyError
            match e with
            | JsError message _ => message
            | JsPtyError pe => pty_message pe
            | JsOther _ => "Unknown spawn error"
            end
            SPAWN_FAILED))
      end
  | Thrown _ => False
  end.
Proof.
  unfold spawnPty. rewrite run_mbind, run_await.
  destruct (getPty_summary rt s) as (r & ls & ps & Hrun & _).
  rewrite Hrun. cbn [fst].
  destruct r as [impl|]; [|reflexivity].
  rewrite run_try_catch.
  destruct (spawn (module impl) file args options) as [p|e]; [reflexivity|].
  cbn [run]. unfold spawnPty_catch. rewrite run_mbind.
  destruct e as [message code|pe|b]; reflexivity.
Qed.

(* ===================================================================== *)
(** ** The fallback session *)
(* ===================================================================== *)

Lemma forEach_reached (listeners : list Listener) (e : Emitted) :
  fst (forEach listeners e) = map (fun l => call_of l e) (reached listeners e).
Proof.
  induction listeners as [|l rest IH]; [reflexivity|]. cbn [forEach reached].
  destruct (listener_body l e); [|reflexivity].
  destruct (forEach rest e) as [calls thrown]. cbn in *. by rewrite IH.
Qed.

(** When no listener throws, a round reaches every listener. *)
Lemma reached_all (listeners : list Listener) (e : Emitted) :
  Forall (fun l => exists u, listener_body l e = Normal u) listeners ->
  reached listeners e = listeners.
Proof.
  induction 1 as [|l rest [u Hu] _ IH]; [reflexivity|]. cbn [reached].
  by rewrite Hu, IH.
Qed.

Lemma data_calls_only (l : list Listener) (data : string) :
  List.filter is_exit_call (fst (forEach l (EmitData data))) = [].
Proof.
  rewrite forEach_reached. induction (reached l (EmitData data)); [done|]. by cbn.
Qed.

Lemma exit_calls_only (l : list Listener) (c : Z) (g : ExitSignal) :
  List.filter is_exit_call (fst (forEach l (EmitExit c g))) = fst (forEach l (EmitExit c g)) /\
  List.filter is_data_call (fst (forEach l (EmitExit c g))) = [].
Proof.
  rewrite forEach_reached. generalize (reached l (EmitExit c g)). intros r.
  split; (induction r as [|x r IH]; [done|]); cbn.
  - f_equal. exact IH.
  - exact IH.
Qed.

Section Session.
Context (rt : Runtime) (host_write : HostWrite).

Lemma play_app (tl1 tl2 : list Input) (p : PtyAdapterProcess) (s : State) :
  play rt host_write (tl1 ++ tl2) p s =
  let '(o1, p1, s1) := play rt host_write tl1 p s in
  let '(o2, p2, s2) := play rt host_write tl2 p1 s1 in
  (o1 ++ o2, p2, s2).
Proof.
  revert p s. induction tl1 as [|i tl1 IH]; intros p s; cbn [play app].
  - by destruct (play rt host_write tl2 p s) as [[o2 p2] s2].
  - destruct (react rt host_write i p s) as [[o p'] s'].
    rewrite IH.
    destruct (play rt host_write tl1 p' s') as [[o1 p1] s1].
    destruct (play rt host_write tl2 p1 s1) as [[o2 p2] s2].
    by rewrite app_assoc.
Qed.

(** What a notification makes the caller see: the calls of the round and,
    after them, the exception of the listener that threw. *)
Lemma react_Host (n : Notification) (p : PtyAdapterProcess) (s : State) :
  fst (react rt host_write (Host n) p s) =
  (match n with
   | StdoutData d | StderrData d =>
       map Heard (fst (forEach (listeners_for n p) (EmitData d)))
       ++ match snd (forEach (listeners_for n p) (EmitData d)) with
          | Some e => [Escaped e]
          | None => []
          end
   | Exit c g =>
       map Heard (fst (forEach (listeners_for n p)
                         (EmitExit (default (-1) c) (signal_or_zero g))))
       ++ match snd (forEach (listeners_for n p)
                       (EmitExit (default (-1) c) (signal_or_zero g))) with
          | Some e => [Escaped e]
          | None => []
          end
   | Error _ => []
   end, p).
Proof.
  destruct n as [d|d|c g|e]; cbn [react notify listeners_for].
  - destruct (has_stdout (process p)); [|reflexivity].
    by destruct (forEach (dataListeners p) (EmitData d)).
  - destruct (has_stderr (process p)); [|reflexivity].
    by destruct (forEach (dataListeners p) (EmitData d)).
  - by destruct (forEach (exitListeners p) _).
  - reflexivity.
Qed.

(** Listener calls, operation results and the session do not depend on
    what is on the console or in the resolver's cache. *)
Lemma react_state_irrelevant (i : Input) (p : PtyAdapterProcess) (s1 s2 : State) :
  fst (react rt host_write i p s1) = fst (react rt host_write i p s2).
Proof.
  destruct i as [n|o].
  - by rewrite !react_Host.
  - destruct o as [ev l|d|c r|]; cbn [react operate]; try reflexivity.
    + by destruct (write host_write d p).
    + unfold resize. rewrite !run_logDebug. reflexivity.
Qed.

Lemma play_state_irrelevant (tl : list Input) (p : PtyAdapterProcess) (s1 s2 : State) :
  fst (play rt host_write tl p s1) = fst (play rt host_write tl p s2).
Proof.
  revert p s1 s2. induction tl as [|i tl IH]; intros p s1 s2; cbn [play]; [done|].
  pose proof (react_state_irrelevant i p s1 s2) as Hr.
  destruct (react rt host_write i p s1) as [[o p'] s1'].
  destruct (react rt host_write i p s2) as [[o' p''] s2'].
  cbn [fst] in Hr. injection Hr as -> ->.
  specialize (IH p'' s1' s2').
  destruct (play rt host_write tl p'' s1') as [[oa pa] sa].
  destruct (play rt host_write tl p'' s2') as [[ob pb] sb].
  cbn [fst] in *. by injection IH as -> ->.
Qed.

Lemma heard_app (a b : list Observation) : heard (a ++ b) = heard a ++ heard b.
Proof. unfold heard. apply omap_app. Qed.

Lemma heard_Heard (cs : list ListenerCall) : heard (map Heard cs) = cs.
Proof. induction cs as [|c cs IH]; [done|]. unfold heard in *. cbn. by rewrite IH. Qed.

Lemma heard_round (cs : list ListenerCall) (thrown : option JsThrown) :
  heard (map Heard cs ++ match thrown with Some e => [Escaped e] | None => [] end) = cs.
Proof. rewrite heard_app, heard_Heard. destruct thrown; cbn; by rewrite app_nil_r. Qed.

(** The listener calls a notification leads to. *)
Lemma heard_react_Host (n : Notification) (p : PtyAdapterProcess) (s : State) :
  heard (fst (fst (react rt host_write (Host n) p s))) =
  match n with
  | StdoutData d | StderrData d => fst (forEach (listeners_for n p) (EmitData d))
  | Exit c g =>
      fst (forEach (listeners_for n p) (EmitExit (default (-1) c) (signal_or_zero g)))
  | Error _ => []
  end.
Proof. rewrite react_Host. destruct n; cbn [fst]; by rewrite ?heard_round. Qed.

(** Without an exit notification no exit listener is called. *)
Lemma no_exit_no_exit_call (tl : list Input) (p : PtyAdapterProcess) (s : State) :
  no_exit_notification tl = true ->
  List.filter is_exit_call (calls_of (play rt host_write tl p s)) = [].
Proof.
  unfold calls_of, no_exit_notification.
  revert p s. induction tl as [|i tl IH]; intros p s H; [done|].
  cbn [forallb] in H. apply andb_true_iff in H as [Hi Htl].
  cbn [play].
  destruct (react rt host_write i p s) as [[o p'] s'] eqn:Hr.
  specialize (IH p' s' Htl).
  destruct (play rt host_write tl p' s') as [[o' p''] s''].
  cbn [fst] in *. rewrite heard_app, List.filter_app, IH, app_nil_r.
  assert (o = fst (fst (react rt host_write i p s))) as -> by (by rewrite Hr).
  destruct i as [n|op].
  - rewrite heard_react_Host.
    destruct n as [d|d|c g|e]; try discriminate; try apply data_calls_only. done.
  - cbn [react]. by destruct (operate rt host_write op p s) as [[c q] t].
Qed.

(** While [PTY_DEBUG] is off a session prints error lines only, and none
    unless the child process reports an error. *)
Lemma play_prints (tl : list Input) (p : PtyAdapterProcess) (s : State) :
  PTY_DEBUG rt = false ->
  exists ps,
    printed (snd (play rt host_write tl p s)) = printed s ++ ps /\
    Forall (fun l => severity l = SevError) ps /\
    (no_error_notification tl = true -> ps = []).
Proof.
  intros Hoff. revert p s. induction tl as [|i tl IH]; intros p s.
  - exists []. cbn. by rewrite app_nil_r.
  - cbn [play].
    assert (exists q,
      printed (snd (react rt host_write i p s)) = printed s ++ q /\
      Forall (fun l => severity l = SevError) q /\
      (is_error_notification i = false -> q = [])) as (q & Hq & Hsev & Hnone).
    { destruct i as [n|op].
      - destruct n as [d|d|c g|e]; cbn [react notify].
        + exists []. destruct (if has_stdout (process p) then _ else _). cbn.
          by rewrite app_nil_r.
        + exists []. destruct (if has_stderr (process p) then _ else _). cbn.
          by rewrite app_nil_r.
        + exists []. destruct (forEach (exitListeners p) _). cbn. by rewrite app_nil_r.
        + eexists. split; [reflexivity|]. split; [by repeat constructor|discriminate].
      - destruct op as [ev l|d|c r|]; cbn [react operate];
          try (exists []; cbn; by rewrite app_nil_r).
        + exists []. destruct (write host_write d p). cbn. by rewrite app_nil_r.
        + exists []. unfold resize. rewrite run_logDebug, debug_line_off by done.
          cbn. by rewrite app_nil_r. }
    destruct (react rt host_write i p s) as [[o p'] s'].
    destruct (IH p' s') as (ps & Hps & Hsev' & Hnone').
    destruct (play rt host_write tl p' s') as [[o' p''] s''].
    cbn [snd] in *. exists (q ++ ps). rewrite Hps, Hq, app_assoc.
    split; [done|]. split; [by apply Forall_app|].
    unfold no_error_notification in *. cbn [forallb]. intros H.
    apply andb_true_iff in H as [Hi Htl]. apply negb_true_iff in Hi.
    by rewrite Hnone, Hnone'.
Qed.

End Session.

(* ===================================================================== *)
(** ** The fallback session: exit, write, resize, environment *)
(* ===================================================================== *)

(** C4, as amended: an exit notification of the child fires the exit
    event once: the exit listeners registered at that moment are called
    once each, in registration order, up to and including the first one
    that throws (all of them when none throws), with the process's exit
    code or -1 when it has none, and with [signal ?? 0]: the number 0 when
    the notification carries no signal, and otherwise what the notification
    carries.  The session keeps no record of the exit, so the data
    listeners are called for data notifications that come later exactly as
    if the process had not exited. *)
Theorem exit_contract (rt : Runtime) (host_write : HostWrite)
    (before after : list Input) (code : option Z) (signal : option string)
    (p : PtyAdapterProcess) (s : State) :
  no_exit_notification before = true ->
  no_exit_notification after = true ->
  List.filter is_exit_call
    (calls_of (play rt host_write (before ++ Host (Exit code signal) :: after) p s))
  = map (fun listener =>
           ExitCall (listener_id listener) (default (-1) code)
             match signal with
             | Some name => SignalName name
             | None => SignalNumber 0
             end)
      (reached (exitListeners (session_of (play rt host_write before p s)))
         (EmitExit (default (-1) code) (signal_or_zero signal))) /\
  (Forall (fun listener => exists u,
             listener_body listener (EmitExit (default (-1) code) (signal_or_zero signal))
             = Normal u)
     (exitListeners (session_of (play rt host_write before p s))) ->
   reached (exitListeners (session_of (play rt host_write before p s)))
     (EmitExit (default (-1) code) (signal_or_zero signal))
   = exitListeners (session_of (play rt host_write before p s))) /\
  List.filter is_data_call
    (calls_of (play rt host_write (before ++ Host (Exit code signal) :: after) p s))
  = List.filter is_data_call (calls_of (play rt host_write (before ++ after) p s)).
Proof.
  intros Hb Ha.
  pose proof (no_exit_no_exit_call rt host_write before p s Hb) as Hb'.
  rewrite !play_app. unfold calls_of, session_of in *.
  destruct (play rt host_write before p s) as [[o1 p1] s1].
  pose proof (no_exit_no_exit_call rt host_write after p1 s1 Ha) as Ha'.
  unfold calls_of in Ha'. cbn [play].
  pose proof (heard_react_Host rt host_write (Exit code signal) p1 s1) as Hh.
  pose proof (react_Host rt host_write (Exit code signal) p1 s1) as Hs.
  apply (f_equal snd) in Hs. cbn [snd listeners_for] in Hs, Hh.
  destruct (react rt host_write (Host (Exit code signal)) p1 s1) as [[o2 p2] s2].
  cbn [fst snd] in Hh, Hs. subst p2.
  pose proof (play_state_irrelevant rt host_write after p1 s2 s1) as Hi.
  destruct (play rt host_write after p1 s2) as [[o3 p3] s3].
  destruct (play rt host_write after p1 s1) as [[o3' p3'] s3'].
  cbn [fst snd] in *. injection Hi as -> ->.
  rewrite !heard_app, !List.filter_app, Hh, Hb', Ha'.
  destruct (exit_calls_only (exitListeners p1) (default (-1) code) (signal_or_zero signal))
    as [-> ->].
  rewrite !app_nil_r, forEach_reached. cbn [app].
  split; [|split].
  - by destruct signal.
  - apply reached_all.
  - reflexivity.
Qed.

Lemma exit_contract_witness :
  List.filter is_exit_call
    (calls_of (play rt_x64 quiet_write
       ([Op (OpOn EvExit (quiet_listener 7))] ++ Host (Exit None (Some "SIGTERM"))
          :: [Host (StdoutData "bye")])
       (new_PtyAdapterProcess piped_child) initial))
  = [ExitCall 7%nat (-1) (SignalName "SIGTERM")].
Proof.
  refine (proj1 (exit_contract rt_x64 quiet_write [Op (OpOn EvExit (quiet_listener 7))]
                   [Host (StdoutData "bye")] None (Some "SIGTERM")
                   (new_PtyAdapterProcess piped_child) initial _ _)); reflexivity.
Defined.

(** C4 as stated fails twice.  The child's output may still arrive after
    its exit notification, and the data listener is then called after the
    exit listener.  And for a process killed by a signal the exit listener
    is called with the signal's name, as [child_process] reports it, not
    with a numeric signal value. *)
Lemma data_after_exit_and_signal_name :
  calls_of (play rt_x64 quiet_write
    [Op (OpOn EvData (quiet_listener 1)); Op (OpOn EvExit (quiet_listener 2));
     Host (Exit (Some 0) None); Host (StdoutData "tail")]
    (new_PtyAdapterProcess piped_child) initial)
  = [ExitCall 2%nat 0 (SignalNumber 0); DataCall 1%nat "tail"] /\
  calls_of (play rt_x64 quiet_write
    [Op (OpOn EvExit (quiet_listener 2)); Op OpKill; Host (Exit None (Some "SIGTERM"))]
    (new_PtyAdapterProcess piped_child) initial)
  = [ExitCall 2%nat (-1) (SignalName "SIGTERM")].
Proof. vm_compute. split; reflexivity. Qed.

(** C6: the request handed to the host carries [options.env] laid over
    [process.env] when [options.env] is given and no [env] otherwise, so
    the child's environment has, at every key, the entry of [options.env]
    when there is one and the inherited entry otherwise. *)
Theorem fallback_env_merge (rt : Runtime) (host_spawn : SpawnRequest -> ChildProcess)
    (file : string) (args : list string) (options : IPtySpawnOptions) (s : State)
    (k : string) :
  process (fst (adapter_spawn rt host_spawn file args options s))
    = host_spawn (fallback_request rt file args options) /\
  child_environment rt (fallback_request rt file args options) !! k =
  match opt_env options with
  | Some e =>
      match e !! k with
      | Some v => Some v
      | None => env rt !! k
      end
  | None => env rt !! k
  end.
Proof.
  split; [reflexivity|].
  unfold child_environment, fallback_request, fallback_env. cbn [req_env].
  destruct (opt_env options) as [e|]; cbn [default from_option id]; [|reflexivity].
  rewrite lookup_union. by destruct (e !! k), (env rt !! k).
Qed.

(** C7: on a session whose input stream is destroyed (the process has
    exited) or missing, [write] returns without throwing and leaves the
    session as it was, given that the host's [stream.write] drops a write to
    a destroyed stream without throwing; the adapter adds no check and no
    exception of its own. *)
Theorem write_after_exit (host_write : HostWrite) (data : string)
    (p : PtyAdapterProcess) :
  (forall w d, destroyed w = true -> host_write w d = (Normal tt, w)) ->
  (forall w, stdin (process p) = Some w -> destroyed w = true) ->
  write host_write data p = (Normal tt, p).
Proof.
  intros Hhost Hclosed. unfold write.
  destruct p as [pd [cp [w|] so se kc] dl el]; cbn in *; [|reflexivity].
  by rewrite Hhost by auto.
Qed.

Lemma write_after_exit_witness :
  write quiet_write "echo late" (new_PtyAdapterProcess exited_child)
  = (Normal tt, new_PtyAdapterProcess exited_child).
Proof.
  apply (write_after_exit quiet_write "echo late" (new_PtyAdapterProcess exited_child)).
  - intros w d Hw. unfold quiet_write. by rewrite Hw.
  - intros w [= <-]. reflexivity.
Defined.

(** C9: [resize] returns without throwing for all arguments, leaves the
    session untouched, prints one debug line when [PTY_DEBUG] is on and
    nothing otherwise, and whatever happens to the session afterwards
    (listener calls, results of operations, final session) is what would
    have happened without the call. *)
Theorem resize_is_noop (rt : Runtime) (host_write : HostWrite) (cols rows : Z)
    (p : PtyAdapterProcess) (s : State) (later : list Input) :
  resize rt cols rows p s =
    (Normal tt, p,
     add_prints s (debug_line rt "Resize not supported in fallback adapter" [])) /\
  fst (play rt host_write (Op (OpResize cols rows) :: later) p s)
    = (Returned (Normal tt) :: fst (fst (play rt host_write later p s)),
       session_of (play rt host_write later p s)).
Proof.
  assert (resize rt cols rows p s =
    (Normal tt, p,
     add_prints s (debug_line rt "Resize not supported in fallback adapter" []))) as Hr.
  { unfold resize. by rewrite run_logDebug. }
  split; [exact Hr|].
  cbn [play react operate]. rewrite Hr.
  pose proof (play_state_irrelevant rt host_write later p
    (add_prints s (debug_line rt "Resize not supported in fallback adapter" [])) s) as Hi.
  unfold session_of.
  destruct (play rt host_write later p (add_prints s _)) as [[o1 p1] s1].
  destruct (play rt host_write later p s) as [[o2 p2] s2].
  cbn [fst snd] in *. by injection Hi as -> ->.
Qed.

(* ===================================================================== *)
(** ** Diagnostics *)
(* ===================================================================== *)

Lemma load_prints_are_errors (rt : Runtime) (moduleName : string) :
  PTY_DEBUG rt = false -> load_prints rt moduleName = load_error_lines rt moduleName.
Proof.
  intros H. unfold load_prints, load_error_lines.
  destruct (dynamic_import rt moduleName) as [m|e]; [|reflexivity].
  by destruct (export_spawn (default_or_self m)); rewrite debug_line_off.
Qed.

Lemma load_error_lines_quiet (rt : Runtime) (moduleName : string) :
  load_error_lines rt moduleName = [] <-> quiet_import (dynamic_import rt moduleName) = true.
Proof.
  unfold load_error_lines, quiet_import.
  destruct (dynamic_import rt moduleName) as [m|e]; [done|].
  by destruct (unexpected e).
Qed.

Lemma load_error_lines_severity (rt : Runtime) (ls : list string) :
  Forall (fun l => severity l = SevError) (flat_map (load_error_lines rt) ls).
Proof.
  induction ls as [|m ls IH]; cbn [flat_map]; [constructor|].
  apply Forall_app. split; [|done]. unfold load_error_lines.
  destruct (dynamic_import rt m) as [md|e]; [constructor|].
  destruct (unexpected e); repeat constructor.
Qed.

Lemma flat_map_nil_Forall {A B} (f : A -> list B) (l : list A) :
  flat_map f l = [] <-> Forall (fun x => f x = []) l.
Proof.
  induction l as [|x l IH]; cbn [flat_map]; [by split; [constructor|]|].
  split.
  - intros H. apply app_eq_nil in H as [Hx Hl]. constructor; [done|by apply IH].
  - intros H. inversion H as [|? ? Hx Hl]; subst. rewrite Hx. cbn. by apply IH.
Qed.

(** With [PTY_DEBUG] off, one call of [getPty] prints exactly the error
    lines of the loads it makes. *)
Lemma getPty_loads_and_errors (rt : Runtime) (s : State) :
  PTY_DEBUG rt = false ->
  exists ls,
    loads (snd (run rt (getPty rt) s)) = loads s ++ ls /\
    printed (snd (run rt (getPty rt) s)) = printed s ++ flat_map (load_error_lines rt) ls.
Proof.
  intros Hoff. destruct (cached s) as [v|] eqn:Hc.
  { exists []. rewrite (getPty_cache_hit rt s v Hc). cbn. by rewrite !app_nil_r. }
  rewrite (getPty_cache_miss rt s Hc), run_getPty_termux.
  destruct (isTermux rt) eqn:HT.
  - exists [termux_module].
    destruct (load_result rt termux_module mmmbuto_node_pty) as [impl|].
    + cbn. by rewrite load_prints_are_errors, app_nil_r.
    + rewrite run_getPty_linux_arm64, HT. cbn [negb andb]. rewrite run_getPty_fallback.
      cbn. rewrite !debug_line_off, load_prints_are_errors, !app_nil_r by done. done.
  - rewrite run_getPty_linux_arm64, HT. cbn [negb andb].
    destruct (isLinuxArm64 rt).
    + exists [linux_arm64_module].
      destruct (load_result rt linux_arm64_module lydell_node_pty_linux_arm64) as [impl|].
      * cbn. by rewrite load_prints_are_errors, app_nil_r.
      * rewrite run_getPty_fallback.
        cbn. rewrite !debug_line_off, load_prints_are_errors, !app_nil_r by done. done.
    + exists []. rewrite run_getPty_fallback. cbn.
      by rewrite debug_line_off, !app_nil_r.
Qed.

(** C8, as amended: with [PTY_DEBUG] off, [logDebug] prints nothing, while
    [logError] is not gated and prints its line.  So resolution and the
    fallback session print error lines only.  A call of [getPty] prints one
    error line for each module it hands to [import()] whose import fails
    with an [Error] whose code is not 'MODULE_NOT_FOUND', and nothing else:
    it is silent exactly when no load it makes fails in that way.  A
    fallback session is silent when its child reports no error. *)
Theorem silent_unless_error (rt : Runtime) :
  PTY_DEBUG rt = false ->
  (forall message args s, run rt (logDebug rt message args) s = (Normal tt, s)) /\
  (forall message e s, exists l,
     severity l = SevError /\
     run rt (logError message e) s = (Normal tt, add_prints s [l])) /\
  (forall s, exists ls,
     loads (snd (run rt (getPty rt) s)) = loads s ++ ls /\
     printed (snd (run rt (getPty rt) s))
       = printed s ++
         flat_map (fun m =>
           match dynamic_import rt m with
           | ImportFail e =>
               if instanceof_Error e && bool_decide (thrown_code e ≠ Some "MODULE_NOT_FOUND")
               then [mkLogLine SevError "[PTY] Unexpected error loading native module:"
                       [ArgThrown e]]
               else []
           | ImportOk _ => []
           end) ls /\
     (printed (snd (run rt (getPty rt) s)) = printed s <->
      Forall (fun m => quiet_import (dynamic_import rt m) = true) ls)) /\
  (forall host_write tl p s, exists ps,
     printed (snd (play rt host_write tl p s)) = printed s ++ ps /\
     Forall (fun l => severity l = SevError) ps /\
     (no_error_notification tl = true -> ps = [])).
Proof.
  intros Hoff. split; [|split; [|split]].
  - intros message args s.
    by rewrite run_logDebug, debug_line_off, add_prints_nil.
  - intros message e s. eexists. split; [|reflexivity]. reflexivity.
  - intros s. destruct (getPty_loads_and_errors rt s Hoff) as (ls & Hl & Hp).
    exists ls. split; [done|]. split.
    + rewrite Hp. f_equal. apply flat_map_ext. intros m.
      unfold load_error_lines, unexpected, error_line.
      destruct (dynamic_import rt m) as [md|e]; [done|].
      destruct (instanceof_Error e && _) eqn:He; [|done].
      apply andb_true_iff in He as [He _].
      by destruct e as [msg c|pe|b]; try discriminate.
    + rewrite Hp. split.
      * intros H. rewrite <- (app_nil_r (printed s)) in H at 2.
        apply app_inv_head in H. apply flat_map_nil_Forall in H.
        eapply Forall_impl; [exact H|]. intros m. apply load_error_lines_quiet.
      * intros H. rewrite (proj2 (flat_map_nil_Forall _ _)); [by rewrite app_nil_r|].
        eapply Forall_impl; [exact H|]. intros m. apply load_error_lines_quiet.
  - intros host_write tl p s. by apply play_prints.
Qed.

Lemma silent_unless_error_witness :
  PTY_DEBUG rt_android = false /\
  printed (snd (run rt_android (getPty rt_android) initial)) = [].
Proof.
  split; [reflexivity|].
  destruct (silent_unless_error rt_android eq_refl) as (_ & _ & Hg & _).
  destruct (Hg initial) as (ls & Hl & _ & Hq).
  apply Hq. change (loads (snd (run rt_android (getPty rt_android) initial)))
    with ([] ++ [termux_module]) in Hl.
  apply app_inv_head in Hl. subst ls. repeat constructor.
Defined.

(** C8 as stated fails: with [PTY_DEBUG] unset, a Termux module that is
    installed but fails to load makes [getPty] print on the error sink. *)
Lemma load_error_printed_without_debug :
  PTY_DEBUG rt_android_broken = false /\
  printed (snd (run rt_android_broken (getPty rt_android_broken) initial))
  = [mkLogLine SevError "[PTY] Unexpected error loading native module:"
       [ArgThrown (JsError "dlopen failed: library not found" (Some "ERR_DLOPEN_FAILED"))]].
Proof. vm_compute. split; reflexivity. Qed.

(* ===================================================================== *)
(** ** What programs print *)
(* ===================================================================== *)

Section Printing.
Context (P : LogLine -> Prop).

Lemma Prints_bind {A B} (p : Prog A) (f : A -> Prog B) :
  Prints P p -> (forall a, Prints P (f a)) -> Prints P (p ≫= f).
Proof.
  intros Hp Hf. unfold mbind, Prog_bind.
  induction Hp; cbn [bind]; try (constructor; auto); auto.
Qed.

Lemma Prints_try_catch {A} (p : Prog A) (h : JsThrown -> Prog A) :
  Prints P p -> (forall e, Prints P (h e)) -> Prints P (try_catch p h).
Proof.
  intros Hp Hh. induction Hp; cbn [try_catch]; try (constructor; auto); auto.
Qed.

Lemma run_Prints {A} (rt : Runtime) (p : Prog A) (s : State) :
  Prints P p ->
  exists new, printed (snd (run rt p s)) = printed s ++ new /\ Forall P new.
Proof.
  intros Hp. revert s.
  induction Hp as [a|e|k _ IH|v k _ IH|l k Hl _ IH|m k _ IH|k _ IH]; intros s; cbn [run].
  - exists []. by rewrite app_nil_r.
  - exists []. by rewrite app_nil_r.
  - apply IH.
  - destruct (IH (mkState (Some v) (printed s) (loads s))) as (new & Hn & Hf). eauto.
  - destruct (IH (mkState (cached s) (printed s ++ [l]) (loads s))) as (new & Hn & Hf).
    exists (l :: new). rewrite Hn. cbn [printed]. rewrite <- app_assoc. auto.
  - destruct (IH (dynamic_import rt m) (mkState (cached s) (printed s) (loads s ++ [m])))
      as (new & Hn & Hf). eauto.
  - apply IH.
Qed.

End Printing.

Lemma tagged_line (sev : Severity) (message : string) (args : list LogArg) :
  tagged (mkLogLine sev ("[PTY] " +:+ message) args) = true.
Proof. unfold tagged. cbn [text]. destruct message; vm_compute; reflexivity. Qed.

Lemma Prints_logDebug (rt : Runtime) (message : string) (args : list LogArg) :
  Prints (fun l => tagged l = true) (logDebug rt message args).
Proof.
  unfold logDebug, console. destruct (PTY_DEBUG rt); [|constructor].
  constructor; [apply tagged_line|constructor].
Qed.

Lemma Prints_logError (message : string) (e : option JsThrown) :
  Prints (fun l => tagged l = true) (logError message e).
Proof. unfold logError, console. constructor; [apply tagged_line|constructor]. Qed.

Lemma Prints_loadProvider (rt : Runtime) (moduleName : string) (nm : PtyProviderName) :
  Prints (fun l => tagged l = true) (loadProvider rt moduleName nm).
Proof.
  unfold loadProvider. apply Prints_try_catch.
  - apply Prints_bind.
    + unfold await_import. constructor. intros [m|e]; constructor.
    + intros m. cbn zeta. destruct (export_spawn (default_or_self m));
        (apply Prints_bind; [apply Prints_logDebug|intros; constructor]).
  - intros e. unfold loadProvider_catch. apply Prints_bind; [|intros; constructor].
    destruct (instanceof_Error e && _); [apply Prints_logError|constructor].
Qed.

Lemma Prints_await {A} (P : LogLine -> Prop) (p : Prog A) :
  Prints P p -> Prints P (await p).
Proof. intros H. unfold await. apply Prints_bind; [done|]. intros; repeat constructor. Qed.

Lemma Prints_getPty (rt : Runtime) :
  Prints (fun l => tagged l = true) (getPty rt).
Proof.
  assert (Prints (fun l => tagged l = true) (getPty_fallback rt)) as Hf.
  { unfold getPty_fallback. apply Prints_bind; [apply Prints_logDebug|].
    intros. repeat constructor. }
  assert (Prints (fun l => tagged l = true) (getPty_linux_arm64 rt)) as Hl.
  { unfold getPty_linux_arm64. destruct (negb (isTermux rt) && isLinuxArm64 rt); [|done].
    apply Prints_bind; [apply Prints_await, Prints_loadProvider|].
    intros [impl|]; [repeat constructor|].
    apply Prints_bind; [apply Prints_logDebug|done]. }
  unfold getPty. apply Prints_bind; [repeat constructor|].
  intros [v|]; [constructor|].
  unfold getPty_termux. destruct (isTermux rt); [|done].
  apply Prints_bind; [apply Prints_await, Prints_loadProvider|].
  intros [impl|]; [repeat constructor|].
  apply Prints_bind; [apply Prints_logDebug|done].
Qed.

Lemma Prints_spawnPty (rt : Runtime) (file : string) (args : list string)
    (options : IPtySpawnOptions) :
  Prints (fun l => tagged l = true) (spawnPty rt file args options).
Proof.
  unfold spawnPty. apply Prints_bind; [apply Prints_await, Prints_getPty|].
  intros [impl|]; [|constructor].
  apply Prints_try_catch.
  - destruct (spawn (module impl) file args options); constructor.
  - intros e. unfold spawnPty_catch.
    apply Prints_bind; [apply Prints_logError|intros; constructor].
Qed.

(* ===================================================================== *)
(** ** spawnPty and the cache *)
(* ===================================================================== *)

Lemma run_spawnPty (rt : Runtime) (file : string) (args : list string)
    (options : IPtySpawnOptions) (s : State) :
  run rt (spawnPty rt file args options) s =
  match run rt (getPty rt) s with
  | (Normal None, s') =>
      (Thrown (JsPtyError (mkPtyError "Native PTY not available" NATIVE_NOT_FOUND)), s')
  | (Normal (Some impl), s') =>
      match spawn (module impl) file args options with
      | Normal p => (Normal p, s')
      | Thrown e =>
          (Thrown (JsPtyError (mkPtyError
             (if instanceof_Error e then default "" (thrown_message e)
              else "Unknown spawn error") SPAWN_FAILED)),
           add_prints s' [error_line "Failed to spawn PTY process:" e])
      end
  | (Thrown e, s') => (Thrown e, s')
  end.
Proof.
  unfold spawnPty. rewrite run_mbind, run_await.
  destruct (run rt (getPty rt) s) as [[[impl|]|e] s']; try reflexivity.
  rewrite run_try_catch.
  destruct (spawn (module impl) file args options) as [p|e]; [reflexivity|].
  cbn [run]. unfold spawnPty_catch. by rewrite run_mbind, run_logError.
Qed.

(* ===================================================================== *)
(** ** Calls in flight *)
(* ===================================================================== *)

Lemma resolved_eq (rt : Runtime) :
  resolved rt =
  if isTermux rt then load_result rt termux_module mmmbuto_node_pty
  else if isLinuxArm64 rt then load_result rt linux_arm64_module lydell_node_pty_linux_arm64
  else None.
Proof.
  unfold resolved. rewrite (getPty_cache_miss rt initial eq_refl), run_getPty_termux.
  destruct (isTermux rt) eqn:HT.
  - destruct (load_result rt termux_module mmmbuto_node_pty); [reflexivity|].
    rewrite run_getPty_linux_arm64, HT. cbn [negb andb]. by rewrite run_getPty_fallback.
  - rewrite run_getPty_linux_arm64, HT. cbn [negb andb].
    destruct (isLinuxArm64 rt); [|by rewrite run_getPty_fallback].
    destruct (load_result rt linux_arm64_module lydell_node_pty_linux_arm64);
      [reflexivity|by rewrite run_getPty_fallback].
Qed.

(** A call past its import goes on to return [r], leaving the cache empty
    or holding [r] and handing nothing more to [import()]. *)
Lemma resume_outcome (rt : Runtime) (r : PtyImplementation)
    (k : Prog PtyImplementation) (s : State) :
  Settles r k -> cache_ok r s ->
  match advance rt k s with
  | (Done c, s') => c = Normal r /\ cache_ok r s' /\ loads s' = loads s
  | (Suspended k', s') => Settles r k' /\ cache_ok r s' /\ loads s' = loads s
  end.
Proof.
  intros Hk. revert s. induction Hk as [|k _ IH|l k _ IH|k Hk _]; intros s Hs; cbn [advance].
  - done.
  - specialize (IH (mkState (Some r) (printed s) (loads s))).
    destruct (advance rt k _) as [[c|k'] s']; apply IH; by right.
  - specialize (IH (mkState (cached s) (printed s ++ [l]) (loads s))).
    destruct (advance rt k _) as [[c|k'] s']; apply IH; done.
  - done.
Qed.

(** A new call either returns at once, with what a first call returns and
    without an import, or it found the cache empty, handed exactly one
    module to [import()] and is now past its import. *)
Lemma call_outcome (rt : Runtime) (s : State) :
  cache_ok (resolved rt) s ->
  match advance rt (getPty rt) s with
  | (Done c, s') =>
      c = Normal (resolved rt) /\ cache_ok (resolved rt) s' /\ loads s' = loads s
  | (Suspended k, s') =>
      Settles (resolved rt) k /\ cache_ok (resolved rt) s' /\
      exists m, loads s' = loads s ++ [m]
  end.
Proof.
  intros Hs. rewrite resolved_eq in *. unfold cache_ok in *.
  unfold getPty, getPty_termux, getPty_linux_arm64, getPty_fallback, loadProvider,
    loadProvider_catch, load_result, await, await_import, logDebug, logError in *.
  cbn [advance mbind Prog_bind bind get_cached].
  destruct (cached s) as [v|] eqn:Hc.
  { cbn [advance]. destruct Hs as [Hs|Hs]; [discriminate|]. injection Hs as ->.
    repeat split. right. by rewrite Hc. }
  clear Hs.
  destruct (PTY_DEBUG rt), (isTermux rt); cbn;
    try destruct (isLinuxArm64 rt); cbn;
    repeat match goal with
    | |- context [dynamic_import rt ?m] => destruct (dynamic_import rt m) as [md|e]; cbn
    | |- context [export_spawn ?x] => destruct (export_spawn x) as [f|]; cbn
    | |- context [instanceof_Error ?e && ?b] => destruct (instanceof_Error e && b); cbn
    end;
    try (split; [repeat constructor|split; [by left|by eexists]]);
    try (split; [reflexivity|split; [by right|reflexivity]]).
Qed.

Lemma find_call_In (i : nat) (l : list (nat * Prog PtyImplementation))
    (k : Prog PtyImplementation) :
  find_call i l = Some k -> exists j, In (j, k) l.
Proof.
  unfold find_call. destruct (List.find _ l) as [[j k']|] eqn:Hf; [|discriminate].
  intros [= <-]. apply List.find_some in Hf as [Hin _]. eauto.
Qed.

Lemma drop_call_Forall (i : nat) (l : list (nat * Prog PtyImplementation))
    (Q : nat * Prog PtyImplementation -> Prop) :
  Forall Q l -> Forall Q (drop_call i l).
Proof.
  unfold drop_call. rewrite !List.Forall_forall. intros H x Hx.
  apply List.filter_In in Hx as [Hx _]. auto.
Qed.

Lemma step_ok (rt : Runtime) (sc : Sched) (ev : Event) :
  sched_ok rt sc -> sched_ok rt (step rt sc ev).
Proof.
  intros (Hc & Hin & Hret & Hld). destruct ev as [|i]; unfold step.
  - pose proof (call_outcome rt (modstate sc) Hc) as Ho.
    destruct (advance rt (getPty rt) (modstate sc)) as [[c|k] s']; cbn [settle].
    + destruct Ho as (-> & Hc' & Hl). repeat split; cbn; auto.
      * apply Forall_app. split; auto.
      * rewrite Hl. lia.
    + destruct Ho as (Hk & Hc' & m & Hl). repeat split; cbn; auto.
      * apply Forall_app. split; auto.
      * rewrite Hl, length_app. cbn. lia.
  - destruct (find_call i (in_flight sc)) as [k|] eqn:Hf; [|by repeat split].
    assert (Settles (resolved rt) k) as Hk.
    { apply find_call_In in Hf as [j Hj].
      rewrite List.Forall_forall in Hin. apply (Hin _ Hj). }
    pose proof (resume_outcome rt _ k (modstate sc) Hk Hc) as Ho.
    destruct (advance rt k (modstate sc)) as [[c|k'] s']; cbn [settle].
    + destruct Ho as (-> & Hc' & Hl). repeat split; cbn; auto.
      * by apply drop_call_Forall.
      * apply Forall_app. split; auto.
      * by rewrite Hl.
    + destruct Ho as (Hk' & Hc' & Hl). repeat split; cbn; auto.
      * apply Forall_app. split; [by apply drop_call_Forall|auto].
      * by rewrite Hl.
Qed.

Lemma exec_ok (rt : Runtime) (evs : list Event) (sc : Sched) :
  sched_ok rt sc -> sched_ok rt (exec rt evs sc).
Proof.
  unfold exec. revert sc. induction evs as [|ev evs IH]; intros sc H; cbn [fold_left]; [done|].
  apply IH. by apply step_ok.
Qed.

Lemma boot_ok (rt : Runtime) : sched_ok rt boot.
Proof. repeat split; cbn; auto. by left. Qed.

(* ===================================================================== *)
(** ** More on resolution *)
(* ===================================================================== *)

(** X1: however calls of [getPty] overlap, every call that returns, returns
    normally and with the value a single awaited call returns on a freshly
    loaded module (same provider name, same module), and the cache is
    either still empty or holds that value. *)
Theorem overlapping_calls_agree (rt : Runtime) (evs : list Event) :
  Forall (fun t => snd t = Normal (resolved rt)) (returned (exec rt evs boot)) /\
  (cached (modstate (exec rt evs boot)) = None \/
   cached (modstate (exec rt evs boot)) = Some (resolved rt)).
Proof.
  destruct (exec_ok rt evs boot (boot_ok rt)) as (Hc & _ & Hr & _). by split.
Qed.

Lemma started_exec (rt : Runtime) (evs : list Event) (sc : Sched) :
  started (exec rt evs sc) = (started sc + calls_made evs)%nat.
Proof.
  unfold exec, calls_made. revert sc.
  induction evs as [|ev evs IH]; intros sc; cbn [fold_left List.filter length]; [lia|].
  rewrite IH. destruct ev as [|i]; unfold step; cbn [length].
  - destruct (advance rt (getPty rt) (modstate sc)) as [[c|k] s']; cbn; lia.
  - destruct (find_call i (in_flight sc)) as [k|]; [|lia].
    destruct (advance rt k (modstate sc)) as [[c|k'] s']; cbn; lia.
Qed.

(** X2: a call of [getPty] hands at most one module to [import()]: after
    any events, whatever the interleaving, [import()] was called at most
    as often as [getPty()] was. *)
Theorem imports_bounded_by_calls (rt : Runtime) (evs : list Event) :
  (length (loads (modstate (exec rt evs boot))) <= calls_made evs)%nat.
Proof.
  destruct (exec_ok rt evs boot (boot_ok rt)) as (_ & _ & _ & Hl).
  by rewrite started_exec in Hl.
Qed.

Lemma advance_getPty_no_native (rt : Runtime) (s : State) :
  isTermux rt = false -> isLinuxArm64 rt = false ->
  (cached s = None \/ cached s = Some None) ->
  exists s', advance rt (getPty rt) s = (Done (Normal None), s') /\
             loads s' = loads s /\ cached s' = Some None.
Proof.
  intros HT HL Hc.
  unfold getPty, getPty_termux, getPty_linux_arm64, getPty_fallback, logDebug.
  cbn [advance mbind Prog_bind bind get_cached]. rewrite HT, HL. cbn [negb andb].
  destruct (cached s) as [v|] eqn:Hcv.
  - destruct Hc as [Hc|Hc]; [discriminate|]. injection Hc as ->.
    cbn [advance]. eauto.
  - destruct (PTY_DEBUG rt); cbn; eauto.
Qed.

Lemma step_no_native (rt : Runtime) (sc : Sched) (ev : Event) :
  isTermux rt = false -> isLinuxArm64 rt = false ->
  in_flight sc = [] -> loads (modstate sc) = [] ->
  (cached (modstate sc) = None \/ cached (modstate sc) = Some None) ->
  Forall (fun t => snd t = Normal None) (returned sc) ->
  in_flight (step rt sc ev) = [] /\
  loads (modstate (step rt sc ev)) = [] /\
  (cached (modstate (step rt sc ev)) = None \/
   cached (modstate (step rt sc ev)) = Some None) /\
  Forall (fun t => snd t = Normal None) (returned (step rt sc ev)) /\
  length (returned (step rt sc ev)) = (length (returned sc) + calls_made [ev])%nat.
Proof.
  intros HT HL Hin Hld Hc Hret. destruct ev as [|i]; unfold step.
  - destruct (advance_getPty_no_native rt (modstate sc) HT HL Hc) as (s' & -> & Hl & Hc').
    cbn [settle in_flight modstate returned]. repeat split; auto.
    + congruence.
    + apply Forall_app. split; auto.
    + rewrite length_app. reflexivity.
  - rewrite Hin. cbn. repeat split; auto.
Qed.

(** X3: where neither platform test holds, [getPty] never suspends and
    never imports: after any events no call is in flight, nothing was
    handed to [import()], and every call has returned [null]. *)
Theorem no_native_platform_no_import (rt : Runtime) (evs : list Event) :
  isTermux rt = false -> isLinuxArm64 rt = false ->
  in_flight (exec rt evs boot) = [] /\
  loads (modstate (exec rt evs boot)) = [] /\
  length (returned (exec rt evs boot)) = calls_made evs /\
  Forall (fun t => snd t = Normal None) (returned (exec rt evs boot)).
Proof.
  intros HT HL.
  assert (forall sc,
    in_flight sc = [] -> loads (modstate sc) = [] ->
    (cached (modstate sc) = None \/ cached (modstate sc) = Some None) ->
    Forall (fun t => snd t = Normal None) (returned sc) ->
    in_flight (exec rt evs sc) = [] /\
    loads (modstate (exec rt evs sc)) = [] /\
    length (returned (exec rt evs sc)) = (length (returned sc) + calls_made evs)%nat /\
    Forall (fun t => snd t = Normal None) (returned (exec rt evs sc))) as H.
  { unfold exec.
    induction evs as [|ev evs IH]; intros sc Hin Hld Hc Hret; cbn [fold_left].
    - repeat split; auto.
    - destruct (step_no_native rt sc ev HT HL Hin Hld Hc Hret) as (H1 & H2 & H3 & H4 & H5).
      destruct (IH _ H1 H2 H3 H4) as (I1 & I2 & I3 & I4).
      repeat split; auto. rewrite I3, H5. unfold calls_made. cbn [List.filter].
      destruct ev; cbn [length]; lia. }
  destruct (H boot) as (H1 & H2 & H3 & H4); cbn; auto.
Qed.

Lemma no_native_platform_no_import_witness :
  in_flight (exec rt_x64 [Call; Call; Resume 0] boot) = [] /\
  length (returned (exec rt_x64 [Call; Call; Resume 0] boot)) = 2%nat.
Proof.
  destruct (no_native_platform_no_import rt_x64 [Call; Call; Resume 0])
    as (H1 & _ & H3 & _); [reflexivity|reflexivity|]. split; [exact H1|exact H3].
Defined.

Lemma load_result_Some (rt : Runtime) (moduleName : string) (nm : PtyProviderName)
    (impl : NativePty) :
  load_result rt moduleName nm = Some impl ->
  name impl = nm /\
  exists md, dynamic_import rt moduleName = ImportOk md /\
             export_spawn (default_or_self md) = Some (spawn (module impl)).
Proof.
  unfold load_result. destruct (dynamic_import rt moduleName) as [md|e]; [|discriminate].
  destruct (export_spawn (default_or_self md)) as [f|] eqn:Hf; [|discriminate].
  intros [= <-]. split; [reflexivity|]. exists md. by split.
Qed.

(** X4: the provider [getPty] resolves to matches the platform: a result
    named [mmmbuto-node-pty] is returned only on Termux and wraps the
    [spawn] of the Termux module; a result named
    [lydell-node-pty-linux-arm64] is returned only on Linux ARM64 outside
    Termux and wraps the [spawn] of the Linux ARM64 module. *)
Theorem provider_matches_platform (rt : Runtime) (s : State) (impl : NativePty) :
  cached s = None ->
  fst (run rt (getPty rt) s) = Normal (Some impl) ->
  match name impl with
  | mmmbuto_node_pty =>
      isTermux rt = true /\
      exists md, dynamic_import rt termux_module = ImportOk md /\
                 export_spawn (default_or_self md) = Some (spawn (module impl))
  | lydell_node_pty_linux_arm64 =>
      isTermux rt = false /\ isLinuxArm64 rt = true /\
      exists md, dynamic_import rt linux_arm64_module = ImportOk md /\
                 export_spawn (default_or_self md) = Some (spawn (module impl))
  end.
Proof.
  intros Hc. rewrite (getPty_cache_miss rt s Hc), run_getPty_termux.
  destruct (isTermux rt) eqn:HT.
  - destruct (load_result rt termux_module mmmbuto_node_pty) as [i|] eqn:Hl.
    + intros [= <-]. apply load_result_Some in Hl as [-> Hmd]. by split.
    + rewrite run_getPty_linux_arm64, HT. cbn [negb andb].
      rewrite run_getPty_fallback. discriminate.
  - rewrite run_getPty_linux_arm64, HT. cbn [negb andb].
    destruct (isLinuxArm64 rt) eqn:HL; [|rewrite run_getPty_fallback; discriminate].
    destruct (load_result rt linux_arm64_module lydell_node_pty_linux_arm64) as [i|] eqn:Hl.
    + intros [= <-]. apply load_result_Some in Hl as [-> Hmd]. by repeat split.
    + rewrite run_getPty_fallback. discriminate.
Qed.

Lemma provider_matches_platform_witness :
  isTermux rt_linux_arm64 = false /\ isLinuxArm64 rt_linux_arm64 = true /\
  exists md, dynamic_import rt_linux_arm64 linux_arm64_module = ImportOk md /\
             export_spawn (default_or_self md) = Some spawn_ok.
Proof.
  apply (provider_matches_platform rt_linux_arm64 initial
           (mkNativePty (mkNative spawn_ok) lydell_node_pty_linux_arm64));
    reflexivity.
Defined.

(** X5: the shape check looks at the [default] export whenever the module
    has one: the loader then returns the provider if [default] has a
    [spawn] and [null] if it has none, also when the namespace itself
    exports a [spawn]; the namespace is looked at only when there is no
    [default]. *)
Theorem default_export_decides (rt : Runtime) (moduleName : string)
    (nm : PtyProviderName) (s : State) (md : ModuleNs) :
  dynamic_import rt moduleName = ImportOk md ->
  fst (run rt (loadProvider rt moduleName nm) s) =
  Normal ((fun f => mkNativePty (mkNative f) nm) <$>
          match mod_default md with
          | Some d => export_spawn d
          | None => export_spawn (mod_self md)
          end).
Proof.
  intros Hmd. rewrite run_loadProvider. unfold load_result, default_or_self.
  rewrite Hmd. cbn [fst]. by destruct (mod_default md) as [d|]; destruct (export_spawn _).
Qed.

Lemma default_export_decides_witness :
  fst (run rt_android_masked
         (loadProvider rt_android_masked termux_module mmmbuto_node_pty) initial)
  = Normal None.
Proof.
  apply (default_export_decides rt_android_masked termux_module mmmbuto_node_pty
           initial masked_module). reflexivity.
Defined.

(** X6: [spawnPty] leaves the cache and the list of imports exactly as the
    [getPty] inside it leaves them, whether it returns or throws: a failed
    spawn does not clear the cache.  So after one [spawnPty] the cache is
    written, and no later [spawnPty] imports anything. *)
Theorem spawnPty_keeps_cache (rt : Runtime) (file : string) (args : list string)
    (options : IPtySpawnOptions) (s : State) :
  cached (snd (run rt (spawnPty rt file args options) s))
    = cached (snd (run rt (getPty rt) s)) /\
  loads (snd (run rt (spawnPty rt file args options) s))
    = loads (snd (run rt (getPty rt) s)) /\
  cached (snd (run rt (spawnPty rt file args options) s)) <> None /\
  forall file' args' options',
    loads (snd (run rt (spawnPty rt file' args' options')
                  (snd (run rt (spawnPty rt file args options) s))))
    = loads (snd (run rt (spawnPty rt file args options) s)).
Proof.
  assert (forall f a o t,
    cached (snd (run rt (spawnPty rt f a o) t)) = cached (snd (run rt (getPty rt) t)) /\
    loads (snd (run rt (spawnPty rt f a o) t)) = loads (snd (run rt (getPty rt) t))) as Hsame.
  { intros f a o t. rewrite run_spawnPty.
    destruct (run rt (getPty rt) t) as [[[impl|]|e] t']; try done.
    by destruct (spawn (module impl) f a o). }
  destruct (Hsame file args options s) as [Hc Hl].
  destruct (getPty_summary rt s) as (r & ls & ps & Hrun & _).
  assert (cached (snd (run rt (spawnPty rt file args options) s)) = Some r) as Hr.
  { rewrite Hc, Hrun. reflexivity. }
  repeat split; auto.
  - rewrite Hr. discriminate.
  - intros file' args' options'.
    destruct (Hsame file' args' options'
                (snd (run rt (spawnPty rt file args options) s))) as [_ ->].
    by rewrite (getPty_cache_hit rt _ r Hr).
Qed.

(** X7: [spawnPty] prints what the [getPty] inside it prints and, when the
    provider's [spawn] throws, one more line on the error sink, whatever
    [PTY_DEBUG] is; the [NATIVE_NOT_FOUND] failure adds no line. *)
Theorem spawnPty_error_sink (rt : Runtime) (file : string) (args : list string)
    (options : IPtySpawnOptions) (s : State) :
  printed (snd (run rt (spawnPty rt file args options) s)) =
  printed (snd (run rt (getPty rt) s)) ++
  match fst (run rt (getPty rt) s) with
  | Normal (Some impl) =>
      match spawn (module impl) file args options with
      | Thrown e => [mkLogLine SevError "[PTY] Failed to spawn PTY process:"
                       [if truthy e then ArgThrown e else ArgString ""]]
      | Normal _ => []
      end
  | _ => []
  end.
Proof.
  rewrite run_spawnPty.
  destruct (run rt (getPty rt) s) as [[[impl|]|e] s']; cbn [fst snd];
    try by rewrite app_nil_r.
  destruct (spawn (module impl) file args options) as [p|e]; cbn [snd].
  - by rewrite app_nil_r.
  - reflexivity.
Qed.

(** X8: every line printed by [spawnPty] (and so by the [getPty] and the
    loader inside it) and by a fallback session, on either sink, starts
    with '[PTY] '. *)
Theorem every_line_has_the_prefix (rt : Runtime) (host_write : HostWrite) :
  (forall file args options s, exists new,
     printed (snd (run rt (spawnPty rt file args options) s)) = printed s ++ new /\
     Forall (fun l => tagged l = true) new) /\
  (forall s, exists new,
     printed (snd (run rt (getPty rt) s)) = printed s ++ new /\
     Forall (fun l => tagged l = true) new) /\
  (forall tl p s, exists new,
     printed (snd (play rt host_write tl p s)) = printed s ++ new /\
     Forall (fun l => tagged l = true) new).
Proof.
  split; [|split].
  - intros. apply run_Prints, Prints_spawnPty.
  - intros. apply run_Prints, Prints_getPty.
  - intros tl. induction tl as [|i tl IH]; intros p s; cbn [play].
    { exists []. cbn. by rewrite app_nil_r. }
    assert (exists q, printed (snd (react rt host_write i p s)) = printed s ++ q /\
                      Forall (fun l => tagged l = true) q) as (q & Hq & Hqt).
    { destruct i as [n|op].
      - destruct n as [d|d|c g|e]; cbn [react notify].
        + exists []. destruct (if has_stdout (process p) then _ else _). cbn.
          by rewrite app_nil_r.
        + exists []. destruct (if has_stderr (process p) then _ else _). cbn.
          by rewrite app_nil_r.
        + exists []. destruct (forEach (exitListeners p) _). cbn. by rewrite app_nil_r.
        + eexists. split; [reflexivity|]. repeat constructor.
      - destruct op as [ev l|d|c r|]; cbn [react operate];
          try (exists []; cbn; by rewrite app_nil_r).
        + exists []. destruct (write host_write d p). cbn. by rewrite app_nil_r.
        + unfold resize.
          destruct (run_Prints (fun l => tagged l = true) rt
                      (logDebug rt "Resize not supported in fallback adapter" []) s
                      (Prints_logDebug rt _ _)) as (new & Hn & Hf).
          destruct (run rt (logDebug rt _ _) s) as [c' s']. cbn in *. eauto. }
    destruct (react rt host_write i p s) as [[o p'] s'].
    destruct (IH p' s') as (new & Hn & Hf).
    destruct (play rt host_write tl p' s') as [[o' p''] s''].
    cbn [snd] in *. exists (q ++ new). rewrite Hn, Hq, app_assoc.
    split; [done|]. by apply Forall_app.
Qed.

Lemma debug_line_on (rt : Runtime) (message : string) (args : list LogArg) :
  PTY_DEBUG rt = true ->
  debug_line rt message args = [mkLogLine SevDebug ("[PTY] " +:+ message) args].
Proof. intros H. unfold debug_line. by rewrite H. Qed.

(** X17: with [PTY_DEBUG] on, the last line a resolving [getPty] prints
    tells how it ended: 'Native module loaded:' with the module's name when
    it returns a provider, 'Using fallback PTY adapter with child_process'
    when it returns [null]. *)
Theorem last_debug_line_tells_outcome (rt : Runtime) (s : State) :
  PTY_DEBUG rt = true ->
  cached s = None ->
  last (printed (snd (run rt (getPty rt) s))) =
  Some match fst (run rt (getPty rt) s) with
       | Normal (Some impl) =>
           mkLogLine SevDebug "[PTY] Native module loaded:"
             [ArgString match name impl with
                        | mmmbuto_node_pty => termux_module
                        | lydell_node_pty_linux_arm64 => linux_arm64_module
                        end]
       | _ => mkLogLine SevDebug "[PTY] Using fallback PTY adapter with child_process" []
       end.
Proof.
  intros Hon Hc. rewrite (getPty_cache_miss rt s Hc), run_getPty_termux.
  assert (forall t, last (printed (snd (run rt (getPty_fallback rt) t))) =
    Some (mkLogLine SevDebug "[PTY] Using fallback PTY adapter with child_process" [])
    /\ fst (run rt (getPty_fallback rt) t) = Normal None) as Hfb.
  { intros t. rewrite run_getPty_fallback, debug_line_on by done. cbn.
    by rewrite last_snoc. }
  assert (forall m nm t impl, load_result rt m nm = Some impl ->
    last (printed (after_load rt t m)) =
    Some (mkLogLine SevDebug "[PTY] Native module loaded:" [ArgString m])
    /\ name impl = nm) as Hok.
  { intros m nm t impl. unfold load_result, after_load, load_prints.
    destruct (dynamic_import rt m) as [md|e]; [|discriminate].
    destruct (export_spawn (default_or_self md)) as [f|]; [|discriminate].
    intros [= <-]. rewrite debug_line_on by done. cbn. by rewrite last_snoc. }
  destruct (isTermux rt) eqn:HT.
  - destruct (load_result rt termux_module mmmbuto_node_pty) as [impl|] eqn:Hl.
    + cbn [fst snd write_cache printed]. destruct (Hok _ _ s _ Hl) as [Hlast ->]. exact Hlast.
    + rewrite run_getPty_linux_arm64, HT. cbn [negb andb].
      destruct (Hfb (add_prints (after_load rt s termux_module)
        (debug_line rt "Termux PTY not found, trying next provider" []))) as [-> ->].
      reflexivity.
  - rewrite run_getPty_linux_arm64, HT. cbn [negb andb].
    destruct (isLinuxArm64 rt).
    + destruct (load_result rt linux_arm64_module lydell_node_pty_linux_arm64)
        as [impl|] eqn:Hl.
      * cbn [fst snd write_cache printed]. destruct (Hok _ _ s _ Hl) as [Hlast ->]. exact Hlast.
      * destruct (Hfb (add_prints (after_load rt s linux_arm64_module)
          (debug_line rt "Linux ARM64 PTY not found, using fallback adapter" [])))
          as [-> ->].
        reflexivity.
    + destruct (Hfb s) as [-> ->]. reflexivity.
Qed.

Lemma last_debug_line_tells_outcome_witness :
  last (printed (snd (run rt_android_debug (getPty rt_android_debug) initial)))
  = Some (mkLogLine SevDebug "[PTY] Native module loaded:" [ArgString termux_module]).
Proof.
  apply (last_debug_line_tells_outcome rt_android_debug initial); reflexivity.
Defined.

(* ===================================================================== *)
(** ** The two versions of getPty *)
(* ===================================================================== *)

Lemma run_V1_getPty (rt : Runtime) (s : State) :
  cached s = None ->
  exists ps,
    run rt (V1.getPty rt) s =
    if isTermux rt then
      (Normal (load_result rt termux_module mmmbuto_node_pty),
       mkState (Some (load_result rt termux_module mmmbuto_node_pty))
         (printed s ++ ps) (loads s ++ [termux_module]))
    else (Normal None, mkState (Some None) (printed s ++ ps) (loads s)).
Proof.
  intros H. unfold V1.getPty, V1.isAndroid, load_result.
  rewrite run_mbind. cbn [get_cached run]. rewrite H.
  destruct (isTermux rt); cbn [negb].
  - rewrite run_try_catch, run_mbind. cbn [await_import run].
    destruct (dynamic_import rt termux_module) as [m|e]; cbn [run].
    + destruct (export_spawn (default_or_self m)) as [f|];
        rewrite run_mbind, run_logDebug; cbn [run mbind Prog_bind bind set_cached];
        eexists; reflexivity.
    + unfold V1.getPty_catch. rewrite run_mbind, run_logDebug, run_mbind.
      destruct (instanceof_Error e && _).
      * rewrite run_logError. cbn [run mbind Prog_bind bind set_cached].
        exists (debug_line rt "Native module not found, using fallback adapter" []
                ++ [error_line "Unexpected error loading native module:" e]).
        unfold add_prints, add_load; cbn [cached printed loads].
        by rewrite <- app_assoc.
      * cbn [run mbind Prog_bind bind set_cached]. eexists; reflexivity.
  - rewrite run_mbind, run_logDebug. cbn [run mbind Prog_bind bind set_cached].
    eexists. unfold add_prints; cbn [cached printed loads]. reflexivity.
Qed.

(** X9: the two-provider [getPty] changes nothing for the platforms of the
    one-provider version: on Termux, and wherever the host is not Linux
    ARM64, both return the same value, hand the same modules to [import()]
    and leave the same cache. *)
Theorem getPty_agrees_with_first_version (rt : Runtime) (s : State) :
  cached s = None ->
  isTermux rt = true \/ isLinuxArm64 rt = false ->
  fst (run rt (getPty rt) s) = fst (run rt (V1.getPty rt) s) /\
  loads (snd (run rt (getPty rt) s)) = loads (snd (run rt (V1.getPty rt) s)) /\
  cached (snd (run rt (getPty rt) s)) = cached (snd (run rt (V1.getPty rt) s)).
Proof.
  intros Hc Hp. destruct (run_V1_getPty rt s Hc) as (ps & ->).
  rewrite (getPty_cache_miss rt s Hc), run_getPty_termux.
  destruct (isTermux rt) eqn:HT.
  - destruct (load_result rt termux_module mmmbuto_node_pty) as [impl|];
      [split; [|split]; reflexivity|].
    rewrite run_getPty_linux_arm64, HT. cbn [negb andb].
    rewrite run_getPty_fallback. split; [|split]; reflexivity.
  - destruct Hp as [Hp|HL]; [discriminate|].
    rewrite run_getPty_linux_arm64, HT, HL. cbn [negb andb].
    rewrite run_getPty_fallback. split; [|split]; reflexivity.
Qed.

Lemma getPty_agrees_with_first_version_witness :
  fst (run rt_android (getPty rt_android) initial)
  = fst (run rt_android (V1.getPty rt_android) initial).
Proof.
  apply (getPty_agrees_with_first_version rt_android initial); [reflexivity|].
  left. reflexivity.
Defined.

(* ===================================================================== *)
(** ** More on the fallback session *)
(* ===================================================================== *)

Section SessionFacts.
Context (rt : Runtime) (host_write : HostWrite).

Lemma react_Host_session (n : Notification) (p : PtyAdapterProcess) (s : State) :
  snd (fst (react rt host_write (Host n) p s)) = p.
Proof. by rewrite react_Host. Qed.

Lemma play_cons (i : Input) (tl : list Input) (p : PtyAdapterProcess) (s : State) :
  fst (play rt host_write (i :: tl) p s) =
  (fst (fst (react rt host_write i p s))
     ++ fst (fst (play rt host_write tl (snd (fst (react rt host_write i p s))) s)),
   session_of (play rt host_write tl (snd (fst (react rt host_write i p s))) s)).
Proof.
  cbn [play]. unfold session_of.
  destruct (react rt host_write i p s) as [[o p'] s']. cbn [fst snd].
  pose proof (play_state_irrelevant rt host_write tl p' s' s) as Hi.
  destruct (play rt host_write tl p' s') as [[o1 p1] s1].
  destruct (play rt host_write tl p' s) as [[o2 p2] s2].
  cbn [fst snd] in *. by injection Hi as -> ->.
Qed.

End SessionFacts.

(** X10: stdout and stderr are merged into one stream of data events, in
    the order the chunks arrive.  Each chunk goes to the data listeners in
    the order of registration (a listener registered twice is called
    twice), up to and including the first listener that throws: the loop
    has no [try], so the listeners after it miss that chunk; when no
    listener throws, every listener gets every chunk. *)
Theorem data_fan_out (rt : Runtime) (host_write : HostWrite) (tl : list Input)
    (p : PtyAdapterProcess) (s : State) :
  has_stdout (process p) = true ->
  has_stderr (process p) = true ->
  only_data tl = true ->
  calls_of (play rt host_write tl p s) =
  flat_map (fun d => map (fun l => DataCall (listener_id l) d)
                       (reached (dataListeners p) (EmitData d)))
    (omap data_payload tl) /\
  ((forall d, Forall (fun l => exists u, listener_body l (EmitData d) = Normal u)
                (dataListeners p)) ->
   calls_of (play rt host_write tl p s) =
   flat_map (fun d => map (fun l => DataCall (listener_id l) d) (dataListeners p))
     (omap data_payload tl)).
Proof.
  intros Ho He Hd.
  assert (calls_of (play rt host_write tl p s) =
    flat_map (fun d => map (fun l => DataCall (listener_id l) d)
                         (reached (dataListeners p) (EmitData d)))
      (omap data_payload tl)) as Hgen.
  { unfold calls_of, only_data in *. revert s Hd.
    induction tl as [|i tl IH]; intros s Hd; [reflexivity|].
    cbn [forallb] in Hd. apply andb_true_iff in Hd as [Hi Htl].
    destruct i as [[d|d|c g|e]|op]; cbn [data_payload] in Hi;
      try (by apply bool_decide_eq_true in Hi as [? ?]);
      rewrite play_cons; cbn [fst];
      rewrite heard_app, heard_react_Host, react_Host_session, (IH s Htl), forEach_reached;
      cbn [listeners_for omap data_payload flat_map];
      rewrite ?Ho, ?He; reflexivity. }
  split; [exact Hgen|].
  intros Hq. rewrite Hgen. apply flat_map_ext. intros d.
  by rewrite (reached_all _ _ (Hq d)).
Qed.

Lemma data_fan_out_witness :
  calls_of (play rt_x64 quiet_write
    [Host (StdoutData "a"); Host (StderrData "oops"); Host (StdoutData "b")]
    (on EvData (quiet_listener 6)
       (on EvData (throwing_listener 5) (new_PtyAdapterProcess piped_child))) initial)
  = [DataCall 5%nat "a"; DataCall 5%nat "oops"; DataCall 5%nat "b"].
Proof.
  refine (proj1 (data_fan_out rt_x64 quiet_write
           [Host (StdoutData "a"); Host (StderrData "oops"); Host (StdoutData "b")]
           (on EvData (quiet_listener 6)
              (on EvData (throwing_listener 5) (new_PtyAdapterProcess piped_child)))
           initial _ _ _)); reflexivity.
Defined.

(** X11: nothing is queued.  A notification that finds no listener of its
    kind (data before the first data listener, an exit before the first
    exit listener) is dropped, and an error notification never reaches a
    listener: what the caller sees afterwards, and the session, are what
    they would be had the notification not happened. *)
Theorem unheard_notification_is_dropped (rt : Runtime) (host_write : HostWrite)
    (n : Notification) (tl : list Input) (p : PtyAdapterProcess) (s : State) :
  listeners_for n p = [] ->
  fst (play rt host_write (Host n :: tl) p s) = fst (play rt host_write tl p s).
Proof.
  intros Hn. rewrite play_cons, react_Host, Hn. cbn [fst snd].
  unfold session_of. destruct n; cbn [forEach map app fst snd];
    by destruct (play rt host_write tl p s) as [[? ?] ?].
Qed.

Lemma unheard_notification_is_dropped_witness :
  calls_of (play rt_x64 quiet_write
    [Host (Exit (Some 0) None); Op (OpOn EvExit (quiet_listener 2))]
    (new_PtyAdapterProcess piped_child) initial) = [].
Proof.
  unfold calls_of.
  rewrite (unheard_notification_is_dropped rt_x64 quiet_write (Exit (Some 0) None)
             [Op (OpOn EvExit (quiet_listener 2))] (new_PtyAdapterProcess piped_child)
             initial);
    reflexivity.
Defined.

(** X13: along any timeline the session's [pid] and its child's output
    streams stay as they were, listeners are only ever added (the lists at
    the end are the lists at the start followed by the registrations, in
    order: there is no way to remove one), and [kill()] reaches the child
    once per call. *)
Theorem session_shape (rt : Runtime) (host_write : HostWrite) (tl : list Input)
    (p : PtyAdapterProcess) (s : State) :
  pid (session_of (play rt host_write tl p s)) = pid p /\
  child_pid (process (session_of (play rt host_write tl p s))) = child_pid (process p) /\
  has_stdout (process (session_of (play rt host_write tl p s))) = has_stdout (process p) /\
  has_stderr (process (session_of (play rt host_write tl p s))) = has_stderr (process p) /\
  dataListeners (session_of (play rt host_write tl p s))
    = dataListeners p ++ registered EvData tl /\
  exitListeners (session_of (play rt host_write tl p s))
    = exitListeners p ++ registered EvExit tl /\
  kill_calls (process (session_of (play rt host_write tl p s)))
    = (kill_calls (process p) + kills tl)%nat.
Proof.
  revert p. induction tl as [|i tl IH]; intros p.
  - cbn. rewrite !app_nil_r. repeat split; (reflexivity || lia).
  - pose proof (play_cons rt host_write i tl p s) as Hc.
    apply (f_equal snd) in Hc. cbn [snd] in Hc. fold (session_of (play rt host_write (i :: tl) p s)) in Hc.
    rewrite Hc. clear Hc.
    destruct (IH (snd (fst (react rt host_write i p s))))
      as (H1 & H2 & H3 & H4 & H5 & H6 & H7).
    rewrite H1, H2, H3, H4, H5, H6, H7. clear.
    destruct i as [n|op].
    + rewrite react_Host. cbn [fst snd]. unfold registered, kills.
      cbn. repeat split; (reflexivity || lia).
    + cbn [react]. unfold registered, kills. destruct op as [[|] l|d|c r|]; cbn [operate].
      * cbn. rewrite <- !app_assoc. repeat split; (reflexivity || lia).
      * cbn. rewrite <- !app_assoc. repeat split; (reflexivity || lia).
      * unfold write. destruct (stdin (process p)) as [w|]; [destruct (host_write w d)|];
          cbn; repeat split; (reflexivity || lia).
      * unfold resize. destruct (run rt _ s). cbn. repeat split; (reflexivity || lia).
      * cbn. repeat split; (reflexivity || lia).
Qed.

(** X14: the child's input stream is touched by [write] only, and every
    written chunk is handed to the host's [stream.write] exactly once, in
    the order of the calls, whatever notifications, resizes or kills happen
    in between and whether or not the process has exited. *)
Theorem writes_reach_stdin_in_order (rt : Runtime) (host_write : HostWrite)
    (tl : list Input) (p : PtyAdapterProcess) (s : State) :
  stdin (process (session_of (play rt host_write tl p s)))
  = feed host_write (stdin (process p)) (written tl).
Proof.
  unfold feed. revert p. induction tl as [|i tl IH]; intros p; [reflexivity|].
  pose proof (play_cons rt host_write i tl p s) as Hc.
  apply (f_equal snd) in Hc. cbn [snd] in Hc.
  fold (session_of (play rt host_write (i :: tl) p s)) in Hc. rewrite Hc, IH. clear.
  destruct i as [n|op].
  - rewrite react_Host. reflexivity.
  - cbn [react]. destruct op as [ev l|d|c r|]; cbn [operate].
    + by destruct ev.
    + unfold write. destruct (stdin (process p)) as [w|] eqn:Hw.
      * destruct (host_write w d) as [c w'] eqn:Hh. cbn. by rewrite Hh.
      * cbn. by rewrite Hw.
    + unfold resize. by destruct (run rt _ s).
    + reflexivity.
Qed.

(** X15: the fallback adapter reads only [cwd] and [env] of its options:
    [name], [cols], [rows] and [handleFlowControl] are accepted and
    ignored, so two option objects that agree on [cwd] and [env] start the
    same child and give the same session. *)
Theorem fallback_ignores_terminal_options (rt : Runtime)
    (host_spawn : SpawnRequest -> ChildProcess) (file : string) (args : list string)
    (o1 o2 : IPtySpawnOptions) (s : State) :
  opt_cwd o1 = opt_cwd o2 ->
  opt_env o1 = opt_env o2 ->
  adapter_spawn rt host_spawn file args o1 s = adapter_spawn rt host_spawn file args o2 s.
Proof.
  intros Hc He. unfold adapter_spawn, fallback_request, fallback_env.
  by rewrite Hc, He.
Qed.

Lemma fallback_ignores_terminal_options_witness :
  adapter_spawn rt_x64 (fun _ => piped_child) "bash" []
    (mkOptions (Some "xterm") (Some 80) (Some 24) None None None) initial
  = adapter_spawn rt_x64 (fun _ => piped_child) "bash" [] no_options initial.
Proof.
  apply (fallback_ignores_terminal_options rt_x64 (fun _ => piped_child) "bash" []
           (mkOptions (Some "xterm") (Some 80) (Some 24) None None None) no_options initial);
    reflexivity.
Defined.

(* ===================================================================== *)
(** ** build-cjs: module specifiers *)
(* ===================================================================== *)

Lemma list_ascii_app (s1 s2 : string) :
  String.list_ascii_of_string (s1 +:+ s2)
  = String.list_ascii_of_string s1 ++ String.list_ascii_of_string s2.
Proof. induction s1 as [|a s1 IH]; simpl; [done|]. by rewrite IH. Qed.

Lemma string_of_app (l1 l2 : list Ascii.ascii) :
  String.string_of_list_ascii (l1 ++ l2)
  = String.string_of_list_ascii l1 +:+ String.string_of_list_ascii l2.
Proof. induction l1 as [|a l1 IH]; simpl; [done|]. by rewrite IH. Qed.

Lemma endsWith_js (s : string) :
  endsWith s ".js" = true <-> exists stem, s = stem +:+ ".js".
Proof.
  unfold endsWith. rewrite bool_decide_eq_true. split.
  - intros [k Hk]. exists (String.string_of_list_ascii k).
    rewrite <- (String.string_of_list_ascii_of_string s), Hk, string_of_app.
    reflexivity.
  - intros [stem ->]. exists (String.list_ascii_of_string stem). apply list_ascii_app.
Qed.

Lemma replace_trailing_js_stem (stem : string) :
  replace_trailing_js (stem +:+ ".js") = stem +:+ ".cjs".
Proof.
  unfold replace_trailing_js.
  assert (endsWith (stem +:+ ".js") ".js" = true) as -> by (apply endsWith_js; eauto).
  rewrite list_ascii_app, length_app.
  replace (length (String.list_ascii_of_string stem)
           + length (String.list_ascii_of_string ".js") - 3)%nat
    with (length (String.list_ascii_of_string stem)) by (cbn; lia).
  rewrite take_app_length, string_of_app, String.string_of_list_ascii_of_string.
  reflexivity.
Qed.

Lemma cjs_does_not_end_in_js (stem : string) :
  endsWith (stem +:+ ".cjs") ".js" = false.
Proof.
  unfold endsWith. apply bool_decide_eq_false. intros [k Hk].
  rewrite list_ascii_app in Hk.
  change (String.list_ascii_of_string ".cjs")
    with (String.list_ascii_of_string "." ++ String.list_ascii_of_string "cjs") in Hk.
  rewrite app_assoc in Hk.
  apply app_inj_2 in Hk as [_ Hk]; [|reflexivity]. discriminate Hk.
Qed.

(** X16: [rewriteSpec] turns a relative specifier [stem.js] into
    [stem.cjs] and leaves every other specifier alone; once rewritten, no
    relative specifier ends in '.js' any more, and rewriting a second time
    changes nothing. *)
Theorem rewriteSpec_settles (spec : string) :
  rewriteSpec (rewriteSpec spec) = rewriteSpec spec /\
  (startsWith (rewriteSpec spec) "." = true -> endsWith (rewriteSpec spec) ".js" = false) /\
  (forall stem, startsWith (stem +:+ ".js") "." = true ->
     rewriteSpec (stem +:+ ".js") = stem +:+ ".cjs") /\
  (startsWith spec "." = false \/ endsWith spec ".js" = false -> rewriteSpec spec = spec).
Proof.
  assert (forall stem, startsWith (stem +:+ ".js") "." = true ->
            rewriteSpec (stem +:+ ".js") = stem +:+ ".cjs") as Hstem.
  { intros stem Hs. unfold rewriteSpec. rewrite Hs.
    assert (endsWith (stem +:+ ".js") ".js" = true) as -> by (apply endsWith_js; eauto).
    apply replace_trailing_js_stem. }
  assert (startsWith (rewriteSpec spec) "." = true ->
          endsWith (rewriteSpec spec) ".js" = false) as Hno.
  { unfold rewriteSpec at 1 2.
    destruct (startsWith spec ".") eqn:Hs; cbn [andb]; [|congruence].
    destruct (endsWith spec ".js") eqn:He; [|done].
    apply endsWith_js in He as [stem ->]. rewrite replace_trailing_js_stem.
    intros _. apply cjs_does_not_end_in_js. }
  repeat split; auto.
  - unfold rewriteSpec at 1.
    destruct (startsWith (rewriteSpec spec) ".") eqn:Hs; cbn [andb]; [|done].
    by rewrite (Hno eq_refl).
  - intros [H|H]; unfold rewriteSpec; rewrite H; cbn [andb]; [done|].
    by rewrite andb_false_r.
Qed.
